(** * Silent-words: the frame pipeline and the letter-lock state machine

    A shallow embedding of [backend/api.py]: the class
    [SignLanguageSystem] with its session fields, [reset_state],
    [_handle_prediction] and [process_frame], and the [/predict] route,
    followed by the properties of the stability/lock mechanism, of the
    classifier cascade, of the region of interest and of the payload
    prefix. *)

From Stdlib Require Import ZArith QArith Bool Btauto List Lia.
From Stdlib Require Import Strings.String Strings.Ascii.
From Stdlib Require Import Floats.SpecFloat.
Import ListNotations.

Local Open Scope Z_scope.
Local Open Scope string_scope.

(** ** Python floats

    A Python [float] is an IEEE 754 binary64 number.  The operations the
    program uses ([int / int], [float * float], [min] and [<]) are taken
    from the Standard Library's executable specification of binary
    floating point, instantiated at 53 bits of precision. *)

Module PyFloat.

Definition prec : Z := 53.
Definition emax : Z := 1024.

Definition float : Type := spec_float.

(** [float(n)] for a Python integer [n], rounded to nearest even. *)
Definition of_int (n : Z) : float := binary_normalize prec emax n 0 false.

Definition mul (x y : float) : float := SFmul prec emax x y.

(** [a / b] on two Python integers (true division).  Both operands of
    the program stay far below 2^53, where true division is the
    binary64 quotient of the two converted operands. *)
Definition truediv (a b : Z) : float := SFdiv prec emax (of_int a) (of_int b).

Definition ltb (x y : float) : bool := SFltb x y.
Definition leb (x y : float) : bool := SFleb x y.

(** The builtin [min(a, b)]: the first argument unless the second is
    strictly smaller. *)
Definition min (a b : float) : float := if ltb b a then b else a.

(** The literal [100.0]. *)
Definition f100 : float := of_int 100.

End PyFloat.

(** ** Python values and control

    Exceptions are values; a call either returns or raises.  A method of
    the system is a function from the object's fields to an outcome and
    the fields afterwards: an exception leaves the fields as they were
    when it was raised. *)

Inductive exn : Type :=
| AttributeError (attr : string)
| IndexError
| ValueError
| LibraryError (msg : string).

Inductive outcome (A : Type) : Type :=
| Returned (a : A)
| Raised (e : exn).
Arguments Returned {A} a.
Arguments Raised {A} e.

(** The session fields of [SignLanguageSystem].  [stable_frame_count] is
    an instance attribute that exists only once something has assigned
    it: [None] is the absent attribute. *)
Record SignLanguageSystem : Type := mkSystem {
  current_word : string;
  last_prediction : string;
  stable_frame_count : option Z;
  already_locked : bool
}.

Definition LOCK_THRESHOLD : Z := 50.

(** The response dictionary built by [_handle_prediction]. *)
Record Response : Type := mkResponse {
  prediction : string;
  confidence : PyFloat.float;
  word : string;
  character : string;
  sentence : string
}.

Module Method.

Definition M (A : Type) : Type :=
  SignLanguageSystem -> outcome A * SignLanguageSystem.

Definition ret {A} (a : A) : M A := fun self => (Returned a, self).

Definition bind {A B} (m : M A) (k : A -> M B) : M B :=
  fun self =>
    match m self with
    | (Returned a, self') => k a self'
    | (Raised e, self') => (Raised e, self')
    end.

Definition raise {A} (e : exn) : M A := fun self => (Raised e, self).

Definition get : M SignLanguageSystem := fun self => (Returned self, self).

Definition modify (f : SignLanguageSystem -> SignLanguageSystem) : M unit :=
  fun self => (Returned tt, f self).

Definition when (b : bool) (m : M unit) : M unit := if b then m else ret tt.

End Method.
Import Method.

Declare Scope method_scope.
Delimit Scope method_scope with method.
Notation "x <- m ;; k" := (bind m (fun x => k))
  (at level 61, m at next level, right associativity) : method_scope.
Notation "m ;; k" := (bind m (fun _ => k))
  (at level 61, right associativity) : method_scope.
Local Open Scope method_scope.

(** Attribute assignments [self.f = v]. *)
Definition set_current_word (v : string) : M unit :=
  modify (fun self => mkSystem v (last_prediction self)
                               (stable_frame_count self) (already_locked self)).
Definition set_last_prediction (v : string) : M unit :=
  modify (fun self => mkSystem (current_word self) v
                               (stable_frame_count self) (already_locked self)).
Definition set_stable_frame_count (v : Z) : M unit :=
  modify (fun self => mkSystem (current_word self) (last_prediction self)
                               (Some v) (already_locked self)).
Definition set_already_locked (v : bool) : M unit :=
  modify (fun self => mkSystem (current_word self) (last_prediction self)
                               (stable_frame_count self) v).

(** Reading [self.stable_frame_count]: an absent attribute raises. *)
Definition get_stable_frame_count : M Z :=
  self <- get;;
  match stable_frame_count self with
  | Some c => ret c
  | None => raise (AttributeError "stable_frame_count")
  end.

(** [s.endswith(suffix)]: [suffix] is [s] itself or ends the tail of [s]. *)
Fixpoint endswith (s suffix : string) : bool :=
  if s =? suffix then true
  else match s with
       | EmptyString => false
       | String _ s' => endswith s' suffix
       end.

(** Truth value of a string: non-empty. *)
Definition truthy (s : string) : bool :=
  match s with EmptyString => false | String _ _ => true end.

(** The fields right after [__init__] has run (the models loaded): the
    constructor assigns [current_word], [last_prediction] and
    [already_locked], and no counter. *)
Definition init_state : SignLanguageSystem :=
  mkSystem "" "blank" None false.

(** [reset_state]. *)
Definition reset_state : M unit :=
  set_current_word "";;
  set_last_prediction "blank";;
  set_stable_frame_count 0;;
  set_already_locked false.

(** The temporal confidence of [_handle_prediction] at counter [c]:
    [min(100.0, (c / LOCK_THRESHOLD) * 100.0)]. *)
Definition temporal_confidence (c : Z) : PyFloat.float :=
  PyFloat.min PyFloat.f100
    (PyFloat.mul (PyFloat.truediv c LOCK_THRESHOLD) PyFloat.f100).

Arguments temporal_confidence : simpl never.

(** [_handle_prediction]. *)
Definition _handle_prediction (current_prediction : string) : M Response :=
  self <- get;;
  (if current_prediction =? last_prediction self then
     when (negb (already_locked self))
          (c <- get_stable_frame_count;; set_stable_frame_count (c + 1))
   else
     set_last_prediction current_prediction;;
     set_stable_frame_count 1;;
     set_already_locked false);;
  c <- get_stable_frame_count;;
  let temporal_confidence := temporal_confidence c in
  self <- get;;
  when ((LOCK_THRESHOLD <=? c)%Z && negb (already_locked self))
       ((if current_prediction =? "blank" then
           when (truthy (current_word self)
                 && negb (endswith (current_word self) " "))
                (set_current_word (current_word self ++ " "))
         else
           set_current_word (current_word self ++ current_prediction));;
        set_already_locked true);;
  self <- get;;
  ret (mkResponse current_prediction temporal_confidence
                  (current_word self) current_prediction "").

(** ** Frames and the region of interest

    A decoded colour frame is a [height x width x 3] array, here the list
    of its rows of BGR pixels. *)

Definition Pixel : Type := (Z * Z * Z)%type.
Definition Frame : Type := list (list Pixel).

(** [frame.shape], without the channel count. *)
Definition shape (frame : Frame) : Z * Z :=
  (Z.of_nat (List.length frame), Z.of_nat (List.length (hd [] frame))).

(** [frame.size]: the number of array elements. *)
Definition size (frame : Frame) : Z :=
  let (h, w) := shape frame in h * w * 3.

(** [cv2.flip(frame, 1)]: mirror around the vertical axis. *)
Definition flip (frame : Frame) : Frame := map (@rev Pixel) frame.

(** [l[a:b]] for [0 <= a]: the slice is clipped to the list. *)
Definition slice {A} (l : list A) (a b : Z) : list A :=
  firstn (Z.to_nat (b - a)) (skipn (Z.to_nat a) l).

(** [frame[y1:y2, x1:x2]]. *)
Definition crop (frame : Frame) (y1 y2 x1 x2 : Z) : Frame :=
  map (fun row => slice row x1 x2) (slice frame y1 y2).

(** The centred region of interest of [process_frame]. *)
Definition region_of_interest (frame : Frame) : Frame :=
  let (h, w) := shape frame in
  let roi_w := 515 in
  let roi_h := 289 in
  let y1 := Z.max 0 ((h - roi_h) / 2) in
  let x1 := Z.max 0 ((w - roi_w) / 2) in
  crop frame y1 (y1 + roi_h) x1 (x1 + roi_w).

(** ** The payload prefix *)

(** [sep in s]. *)
Definition contains (sep s : string) : bool :=
  match index 0 sep s with Some _ => true | None => false end.

(** [s.split(sep)[1]] when [sep] occurs in [s]: what lies between the
    first occurrence of [sep] and the next one. *)
Definition split_second (sep s : string) : string :=
  match index 0 sep s with
  | None => s
  | Some i =>
      let start := (i + String.length sep)%nat in
      let rest := substring start (String.length s - start) s in
      match index 0 sep rest with
      | None => rest
      | Some j => substring 0 j rest
      end
  end.

Definition strip_data_uri (image_data_base64 : string) : string :=
  if contains "base64," image_data_base64
  then split_second "base64," image_data_base64
  else image_data_base64.

(** ** Scores, labels and argmax

    A classifier's output row is a list of scores; a score is a finite
    number, taken here as a rational. *)

Definition Qltb (x y : Q) : bool := negb (Qle_bool y x).

Definition ascii_uppercase : list string :=
  ["A"; "B"; "C"; "D"; "E"; "F"; "G"; "H"; "I"; "J"; "K"; "L"; "M";
   "N"; "O"; "P"; "Q"; "R"; "S"; "T"; "U"; "V"; "W"; "X"; "Y"; "Z"].

(** [row[i]] on an array: out of range raises. *)
Definition getitem {A} (row : list A) (i : nat) : outcome A :=
  match nth_error row i with
  | Some v => Returned v
  | None => Raised IndexError
  end.

(** The dictionary [prediction_map], in insertion order: ['blank'] is
    [row[0]] and the i-th letter is [row[i+1]]. *)
Fixpoint letter_items (row : list Q) (i : nat) (chars : list string)
  : outcome (list (string * Q)) :=
  match chars with
  | [] => Returned []
  | char :: chars' =>
      match getitem row (i + 1) with
      | Raised e => Raised e
      | Returned v =>
          match letter_items row (S i) chars' with
          | Raised e => Raised e
          | Returned items => Returned ((char, v) :: items)
          end
      end
  end.

Definition prediction_map (row : list Q) : outcome (list (string * Q)) :=
  match getitem row 0 with
  | Raised e => Raised e
  | Returned v0 =>
      match letter_items row 0 ascii_uppercase with
      | Raised e => Raised e
      | Returned items => Returned (("blank", v0) :: items)
      end
  end.

(** [sorted(items, key=itemgetter(1), reverse=True)]: a stable sort by
    decreasing score, items of equal score keeping their order. *)
Fixpoint insert_desc (x : string * Q) (l : list (string * Q))
  : list (string * Q) :=
  match l with
  | [] => [x]
  | y :: l' =>
      if Qltb (snd x) (snd y) then y :: insert_desc x l'
      else x :: y :: l'
  end.

Definition sorted_desc (items : list (string * Q)) : list (string * Q) :=
  fold_right insert_desc [] items.

(** [sorted_preds[0][0]]. *)
Definition top_symbol (row : list Q) : outcome string :=
  match prediction_map row with
  | Raised e => Raised e
  | Returned items =>
      match sorted_desc items with
      | [] => Raised IndexError
      | (label, _) :: _ => Returned label
      end
  end.

(** [np.argmax(row)]: the first index of the greatest score; an empty
    row raises. *)
Fixpoint argmax_from (best : Q) (besti i : nat) (row : list Q) : nat :=
  match row with
  | [] => besti
  | v :: row' =>
      if Qltb best v then argmax_from v i (S i) row'
      else argmax_from best besti (S i) row'
  end.

Definition argmax (row : list Q) : outcome nat :=
  match row with
  | [] => Raised ValueError
  | v :: row' => Returned (argmax_from v 0%nat 1%nat row')
  end.

(** [x in labels]. *)
Definition member (x : string) (labels : list string) : bool :=
  existsb (String.eqb x) labels.

Definition group_dru : list string := ["D"; "R"; "U"].
Definition group_tkdi : list string := ["D"; "I"; "K"; "T"].
Definition group_smn : list string := ["M"; "N"; "S"].

(** [max(areas)] on a non-empty sequence. *)
Definition max_of (first : Q) (others : list Q) : Q :=
  fold_left (fun m v => if Qltb m v then v else m) others first.

(** What [process_frame] hands back: the error dictionary of an empty
    payload, [None], or the response of [_handle_prediction]. *)
Inductive FrameResult : Type :=
| ErrorDict (error : string) (conf : Z)
| PyNone
| Reply (r : Response).

(** Truth value of a result: [None] is false, a dictionary with keys is
    true. *)
Definition result_truthy (r : FrameResult) : bool :=
  match r with PyNone => false | _ => true end.

(** An HTTP reply of the [/predict] route: its JSON body and status. *)
Inductive Body : Type :=
| ErrorBody (error : string)
| ResultBody (r : FrameResult).

(** A library call made from a method: its exception, if any, goes up
    through the method. *)
Definition call {A} (o : outcome A) : M A :=
  fun self => (o, self).

(** ** The pipeline

    The OpenCV, numpy and Keras calls are collaborators of the system.
    [decode_image] is [base64.b64decode], [np.frombuffer] and
    [cv2.imdecode] on the stripped payload: it raises, yields no frame,
    or yields a frame.  [binarize] is the grey conversion, the blur, the
    two thresholds and the opening; [contour_areas] is
    [cv2.findContours] followed by [cv2.contourArea] on each contour;
    [to_input] is the resize, the re-threshold and the scaling to a
    [1 x 128 x 128 x 1] tensor.  A model's [predict] gives the score row
    [result[0]] or raises. *)

Section Pipeline.

Variables Mask Tensor : Type.

Record Vision : Type := mkVision {
  decode_image : string -> outcome (option Frame);
  binarize : Frame -> Mask;
  contour_areas : Mask -> list Q;
  to_input : Mask -> Tensor
}.

Record Models : Type := mkModels {
  loaded_model : Tensor -> outcome (list Q);
  loaded_model_dru : Tensor -> outcome (list Q);
  loaded_model_tkdi : Tensor -> outcome (list Q);
  loaded_model_smn : Tensor -> outcome (list Q)
}.

Variable cv : Vision.
Variable models : Models.

(** [labels[np.argmax(res[0])]] after [model.predict(input_data)]. *)
Definition refine (model : Tensor -> outcome (list Q))
           (labels : list string) (input_data : Tensor) : outcome string :=
  match model input_data with
  | Raised e => Raised e
  | Returned res =>
      match argmax res with
      | Raised e => Raised e
      | Returned k => getitem labels k
      end
  end.

(** The classifier cascade of [process_frame]: the main model's top
    symbol, then the hierarchical refinement. *)
Definition classify (input_data : Tensor) : outcome string :=
  match loaded_model models input_data with
  | Raised e => Raised e
  | Returned result =>
      match top_symbol result with
      | Raised e => Raised e
      | Returned top =>
          if member top group_dru then
            refine (loaded_model_dru models) group_dru input_data
          else if member top group_tkdi then
            refine (loaded_model_tkdi models) group_tkdi input_data
          else if member top group_smn then
            refine (loaded_model_smn models) group_smn input_data
          else Returned top
      end
  end.

(** The contour validation: [not contours or max(areas) < 2500]. *)
Definition no_hand (th3 : Mask) : bool :=
  match contour_areas cv th3 with
  | [] => true
  | a :: areas => Qltb (max_of a areas) (inject_Z 2500)
  end.

(** [process_frame]. *)
Definition process_frame (image_data_base64 : string) : M FrameResult :=
  if negb (truthy image_data_base64) then
    ret (ErrorDict "No image data" 0)
  else
    match decode_image cv (strip_data_uri image_data_base64) with
    | Raised _ => ret PyNone
    | Returned None => ret PyNone
    | Returned (Some frame) =>
        let frame := flip frame in
        let roi := region_of_interest frame in
        if (size roi =? 0)%Z then
          r <- _handle_prediction "blank";; ret (Reply r)
        else
          let th3 := binarize cv roi in
          if no_hand th3 then
            r <- _handle_prediction "blank";; ret (Reply r)
          else
            let input_data := to_input cv th3 in
            final_symbol <- call (classify input_data);;
            r <- _handle_prediction final_symbol;; ret (Reply r)
    end.

(** The [/predict] route: [data] is the ['image'] entry of the request,
    if there is one. *)
Definition predict (data : option string) : M (Body * Z) :=
  match data with
  | None => ret (ErrorBody "No image data", 400)
  | Some image =>
      result <- process_frame image;;
      if result_truthy result then ret (ResultBody result, 200)
      else ret (ErrorBody "Processing failed", 500)
  end.

End Pipeline.

Arguments decode_image {Mask Tensor}.
Arguments binarize {Mask Tensor}.
Arguments contour_areas {Mask Tensor}.
Arguments to_input {Mask Tensor}.
Arguments loaded_model {Tensor}.
Arguments loaded_model_dru {Tensor}.
Arguments loaded_model_tkdi {Tensor}.
Arguments loaded_model_smn {Tensor}.
Arguments refine {Tensor}.
Arguments classify {Tensor}.
Arguments no_hand {Mask Tensor}.
Arguments process_frame {Mask Tensor}.
Arguments predict {Mask Tensor}.

(** ** Sessions

    The vocabulary of the properties: the state a call leaves, a run of
    calls, the symbols the cascade can emit, and the reachable states. *)

(** The fields after [_handle_prediction x], whatever it handed back. *)
Definition after_frame (x : string) (self : SignLanguageSystem)
  : SignLanguageSystem :=
  snd (_handle_prediction x self).

(** The fields after one call of [_handle_prediction] per symbol. *)
Definition feed (xs : list string) (self : SignLanguageSystem)
  : SignLanguageSystem :=
  fold_left (fun s x => after_frame x s) xs self.

(** The fields after [reset_state]. *)
Definition after_reset (self : SignLanguageSystem) : SignLanguageSystem :=
  snd (reset_state self).

(** A symbol: ['blank'] or one upper-case letter. *)
Definition is_symbol (x : string) : bool :=
  (x =? "blank") || member x ascii_uppercase.

Inductive reachable : SignLanguageSystem -> Prop :=
| reach_init : reachable init_state
| reach_reset s : reachable s -> reachable (after_reset s)
| reach_frame s x :
    reachable s -> is_symbol x = true -> reachable (after_frame x s).

(** Characters of a committed word. *)
Definition is_space (c : ascii) : bool := (c =? " ")%char.

Definition is_upper (c : ascii) : bool :=
  ((65 <=? nat_of_ascii c) && (nat_of_ascii c <=? 90))%nat.

Fixpoint all_chars (p : ascii -> bool) (w : string) : bool :=
  match w with
  | EmptyString => true
  | String c w' => p c && all_chars p w'
  end.

Definition leading_space (w : string) : bool :=
  match w with
  | String c _ => is_space c
  | EmptyString => false
  end.

Fixpoint double_space (w : string) : bool :=
  match w with
  | EmptyString => false
  | String c w' => (is_space c && leading_space w') || double_space w'
  end.

(** The counter is absent only in the constructor's state, 0 only in the
    reset state, 50 exactly when the session is locked, and between 1 and
    49 otherwise. *)
Definition counter_ok (s : SignLanguageSystem) : Prop :=
  match stable_frame_count s with
  | None => s = init_state
  | Some c =>
      (c = 0 /\ s = mkSystem "" "blank" (Some 0) false)
      \/ (1 <= c <= 49 /\ already_locked s = false)
      \/ (c = 50 /\ already_locked s = true)
  end.

Definition letter_or_space (c : ascii) : bool := is_upper c || is_space c.

(** A well-formed word: letters and spaces only, no space in front, no
    two spaces in a row. *)
Definition word_ok (w : string) : Prop :=
  all_chars letter_or_space w = true
  /\ leading_space w = false
  /\ double_space w = false.

(** The word a commit of symbol [x] leaves behind word [w]: the commit
    block of [_handle_prediction]. *)
Definition commit (x w : string) : string :=
  if x =? "blank" then
    if truthy w && negb (endswith w " ") then w ++ " " else w
  else w ++ x.

(** A stream of symbols in which no symbol is held for [k] consecutive
    frames; [prev] and [run] are the symbol and the length of the run
    that the stream continues. *)
Fixpoint runs_below (k : nat) (prev : string) (run : nat) (xs : list string)
  : bool :=
  match xs with
  | [] => true
  | x :: xs' =>
      let run' := if x =? prev then S run else 1%nat in
      (run' <? k)%nat && runs_below k x run' xs'
  end.

(** A sequence of symbols in which no symbol follows itself, [prev]
    being the symbol before the first. *)
Fixpoint distinct_adjacent (prev : string) (xs : list string) : bool :=
  match xs with
  | [] => true
  | x :: xs' => negb (x =? prev) && distinct_adjacent x xs'
  end.

(** What a locked session's word ends with. *)
Definition lock_matches_word (s : SignLanguageSystem) : Prop :=
  already_locked s = true ->
  if last_prediction s =? "blank"
  then current_word s = "" \/ endswith (current_word s) " " = true
  else endswith (current_word s) (last_prediction s) = true.

(** Frames of progress a session has made: 50 per committed character,
    plus the frames counted towards the next commit. *)
Definition progress (s : SignLanguageSystem) : Z :=
  50 * Z.of_nat (String.length (current_word s))
  + match stable_frame_count s with
    | Some c => if already_locked s then 0 else c
    | None => 0
    end.

(** A frame with [w] pixels in every row. *)
Definition rectangular (w : nat) (frame : Frame) : Prop :=
  Forall (fun row => List.length row = w) frame.

(** ** A sample deployment

    A concrete set of collaborators, for evaluating the pipeline: masks
    and tensors carry no data, every payload decodes to one 2 x 2 frame
    that shows a hand (one contour of area 3000), and the main model
    fails on every input. *)

Definition sample_frame : Frame :=
  [[(0, 0, 0); (255, 255, 255)]; [(255, 255, 255); (0, 0, 0)]].

Definition sample_vision : Vision unit unit :=
  mkVision unit unit
    (fun _ => Returned (Some sample_frame))
    (fun _ => tt)
    (fun _ => [inject_Z 3000])
    (fun _ => tt).

Definition failing_models : Models unit :=
  mkModels unit
    (fun _ => Raised (LibraryError "predict failed"))
    (fun _ => Returned [])
    (fun _ => Returned [])
    (fun _ => Returned []).

(** * Properties *)

(** ** One call of [_handle_prediction], case by case *)

Lemma reset_state_eq (s : SignLanguageSystem) :
  reset_state s = (Returned tt, mkSystem "" "blank" (Some 0) false).
Proof. reflexivity. Qed.

Lemma after_reset_eq (s : SignLanguageSystem) :
  after_reset s = mkSystem "" "blank" (Some 0) false.
Proof. reflexivity. Qed.

Lemma handle_changed x w l c k :
  (x =? l) = false ->
  _handle_prediction x (mkSystem w l c k)
  = (Returned (mkResponse x (temporal_confidence 1) w x ""),
     mkSystem w x (Some 1) false).
Proof.
  intros H. unfold _handle_prediction, bind, get; cbn. rewrite H. reflexivity.
Qed.

Lemma handle_locked x w c :
  _handle_prediction x (mkSystem w x (Some c) true)
  = (Returned (mkResponse x (temporal_confidence c) w x ""),
     mkSystem w x (Some c) true).
Proof.
  unfold _handle_prediction, bind, get; cbn. rewrite String.eqb_refl. cbn.
  rewrite andb_false_r. reflexivity.
Qed.

Lemma handle_counting x w c :
  c + 1 < LOCK_THRESHOLD ->
  _handle_prediction x (mkSystem w x (Some c) false)
  = (Returned (mkResponse x (temporal_confidence (c + 1)) w x ""),
     mkSystem w x (Some (c + 1)) false).
Proof.
  intros H. unfold _handle_prediction, bind, get; cbn.
  rewrite String.eqb_refl. cbn.
  destruct (Z.leb_spec LOCK_THRESHOLD (c + 1)); [lia|]. reflexivity.
Qed.

Lemma handle_commit_letter x w c :
  (x =? "blank") = false -> LOCK_THRESHOLD <= c + 1 ->
  _handle_prediction x (mkSystem w x (Some c) false)
  = (Returned (mkResponse x (temporal_confidence (c + 1)) (w ++ x) x ""),
     mkSystem (w ++ x) x (Some (c + 1)) true).
Proof.
  intros Hx H. unfold _handle_prediction, bind, get; cbn.
  rewrite String.eqb_refl. cbn.
  destruct (Z.leb_spec LOCK_THRESHOLD (c + 1)); [|lia]. cbn.
  rewrite Hx. reflexivity.
Qed.

Lemma handle_commit_blank w c :
  LOCK_THRESHOLD <= c + 1 ->
  _handle_prediction "blank" (mkSystem w "blank" (Some c) false)
  = let w' := if truthy w && negb (endswith w " ") then w ++ " " else w in
    (Returned (mkResponse "blank" (temporal_confidence (c + 1)) w' "blank" ""),
     mkSystem w' "blank" (Some (c + 1)) true).
Proof.
  intros H. unfold _handle_prediction, bind, get; cbn.
  destruct (Z.leb_spec LOCK_THRESHOLD (c + 1)); [|lia]. cbn.
  destruct (truthy w && negb (endswith w " ")); reflexivity.
Qed.

(** With no counter attribute, a call on the same unlocked symbol raises
    and leaves every field as it was. *)
Lemma handle_absent x w :
  _handle_prediction x (mkSystem w x None false)
  = (Raised (AttributeError "stable_frame_count"), mkSystem w x None false).
Proof.
  unfold _handle_prediction, bind, get; cbn. rewrite String.eqb_refl.
  reflexivity.
Qed.

(** ** Runs of one symbol *)

Lemma feed_app xs ys s : feed (xs ++ ys)%list s = feed ys (feed xs s).
Proof. apply fold_left_app. Qed.

(** While the counter stays below the threshold the run only counts. *)
Lemma feed_counting x w n : forall c,
  c + Z.of_nat n < LOCK_THRESHOLD ->
  feed (repeat x n) (mkSystem w x (Some c) false)
  = mkSystem w x (Some (c + Z.of_nat n)) false.
Proof.
  induction n as [|n IH]; intros c H.
  - cbn. rewrite Z.add_0_r. reflexivity.
  - cbn [repeat feed fold_left]. unfold after_frame at 2.
    rewrite handle_counting by lia. cbn [snd].
    fold (feed (repeat x n) (mkSystem w x (Some (c + 1)) false)).
    rewrite IH by lia. f_equal. f_equal. lia.
Qed.

(** Once locked on [x], further frames of [x] change nothing. *)
Lemma feed_locked x w c n :
  feed (repeat x n) (mkSystem w x (Some c) true) = mkSystem w x (Some c) true.
Proof.
  induction n as [|n IH]; [reflexivity|].
  cbn [repeat feed fold_left]. unfold after_frame at 2.
  rewrite handle_locked. exact IH.
Qed.

(** A run of a non-blank symbol from a fresh session, frame by frame. *)
Lemma feed_fresh_below x n :
  (x =? "blank") = false -> (1 <= n <= 49)%nat ->
  feed (repeat x n) (mkSystem "" "blank" (Some 0) false)
  = mkSystem "" x (Some (Z.of_nat n)) false.
Proof.
  intros Hx Hn. destruct n as [|n]; [lia|].
  cbn [repeat feed fold_left]. unfold after_frame at 2.
  rewrite handle_changed by exact Hx. cbn [snd].
  fold (feed (repeat x n) (mkSystem "" x (Some 1) false)).
  rewrite feed_counting by (unfold LOCK_THRESHOLD; lia).
  f_equal. f_equal. lia.
Qed.

Lemma feed_fresh_lock x n :
  (x =? "blank") = false -> (50 <= n)%nat ->
  feed (repeat x n) (mkSystem "" "blank" (Some 0) false)
  = mkSystem x x (Some 50) true.
Proof.
  intros Hx Hn.
  replace n with (49 + S (n - 50))%nat by lia.
  rewrite repeat_app, feed_app, feed_fresh_below by (auto; lia).
  cbn [repeat feed fold_left]. unfold after_frame at 2.
  rewrite handle_commit_letter by (auto; unfold LOCK_THRESHOLD; lia).
  cbn [snd]. apply feed_locked.
Qed.

(** C1: from a freshly reset session, a constant non-blank symbol [x] fed
    frame after frame commits exactly once, on the 50th frame.  Up to 49
    frames the word is empty and the session unlocked; the 49th reply
    has confidence 98.0 and the empty word; the 50th reply has confidence
    100.0 and the word [x]; after it the session is locked; and however
    many more frames of [x] follow, the word stays [x]. *)
Theorem C1_fifty_frames_commit_once :
  forall (s0 : SignLanguageSystem) (x : string),
    x <> "blank" ->
    let fresh := after_reset s0 in
    (forall n, (n <= 49)%nat ->
       current_word (feed (repeat x n) fresh) = ""
       /\ already_locked (feed (repeat x n) fresh) = false)
    /\ fst (_handle_prediction x (feed (repeat x 48) fresh))
       = Returned (mkResponse x (PyFloat.of_int 98) "" x "")
    /\ fst (_handle_prediction x (feed (repeat x 49) fresh))
       = Returned (mkResponse x (PyFloat.of_int 100) x x "")
    /\ already_locked (feed (repeat x 50) fresh) = true
    /\ (forall n, (50 <= n)%nat ->
          current_word (feed (repeat x n) fresh) = x).
Proof.
  intros s0 x Hne fresh. subst fresh. rewrite after_reset_eq.
  assert (Hx : (x =? "blank") = false) by (apply String.eqb_neq; exact Hne).
  repeat split.
  - destruct n as [|n]; [reflexivity|].
    rewrite feed_fresh_below by (auto; lia). reflexivity.
  - destruct n as [|n]; [reflexivity|].
    rewrite feed_fresh_below by (auto; lia). reflexivity.
  - rewrite feed_fresh_below by (auto; lia).
    rewrite handle_counting by (unfold LOCK_THRESHOLD; lia). reflexivity.
  - rewrite feed_fresh_below by (auto; lia).
    rewrite handle_commit_letter by (auto; unfold LOCK_THRESHOLD; lia).
    reflexivity.
  - rewrite feed_fresh_lock by (auto; lia). reflexivity.
  - intros n Hn. rewrite feed_fresh_lock by (auto; lia). reflexivity.
Qed.

Lemma C1_fifty_frames_commit_once_witness :
  current_word (feed (repeat "A" 49) (after_reset init_state)) = ""
  /\ current_word (feed (repeat "A" 50) (after_reset init_state)) = "A"
  /\ current_word (feed (repeat "A" 60) (after_reset init_state)) = "A".
Proof.
  pose proof (C1_fifty_frames_commit_once init_state "A") as H.
  assert (Hne : "A" <> "blank") by discriminate.
  specialize (H Hne). cbv zeta in H.
  destruct H as (Hlow & _ & _ & _ & Hhigh).
  split; [exact (proj1 (Hlow 49%nat (le_n 49)))|].
  split; [apply Hhigh; lia | apply Hhigh; lia].
Defined.

(** C3: right after construction the three assigned fields have their
    initial values, but the counter attribute does not exist: it is not
    the integer 0, and a first frame that carries ['blank'] raises
    [AttributeError] instead of counting.  Only [reset_state] creates the
    counter. *)
Theorem C3_constructor_leaves_counter_unset :
  current_word init_state = ""
  /\ last_prediction init_state = "blank"
  /\ already_locked init_state = false
  /\ stable_frame_count init_state = None
  /\ stable_frame_count init_state <> Some 0
  /\ _handle_prediction "blank" init_state
     = (Raised (AttributeError "stable_frame_count"), init_state)
  /\ stable_frame_count (after_reset init_state) = Some 0.
Proof.
  repeat split; try reflexivity. discriminate.
Qed.

(** ** Reachable sessions: the counter *)

Lemma counter_ok_frame x s : counter_ok s -> counter_ok (after_frame x s).
Proof.
  destruct s as [w l c k]. unfold counter_ok at 1, after_frame.
  cbn [stable_frame_count already_locked].
  intros H. destruct (String.eqb_spec x l) as [->|Hne].
  - destruct c as [c|].
    + destruct H as [[-> H]|[[Hc ->]|[-> ->]]].
      * injection H as -> -> ->. rewrite handle_counting by (cbv; reflexivity).
        cbn. right; left. split; [lia | reflexivity].
      * destruct (Z.eq_dec c 49) as [->|Hc49].
        -- destruct (String.eqb_spec l "blank") as [->|Hl].
           ++ rewrite handle_commit_blank by (cbv; discriminate).
              cbn. right; right. split; reflexivity.
           ++ rewrite handle_commit_letter
                by (try (apply String.eqb_neq; exact Hl); cbv; discriminate).
              cbn. right; right. split; reflexivity.
        -- rewrite handle_counting by (unfold LOCK_THRESHOLD; lia).
           cbn. right; left. split; [lia | reflexivity].
      * rewrite handle_locked. cbn. right; right. split; reflexivity.
    + injection H as -> -> ->. rewrite handle_absent. reflexivity.
  - rewrite handle_changed by (apply String.eqb_neq; exact Hne).
    cbn. right; left. split; [lia | reflexivity].
Qed.

Lemma reachable_counter_ok s : reachable s -> counter_ok s.
Proof.
  induction 1 as [|s _ _|s x _ IH _].
  - reflexivity.
  - left. split; reflexivity.
  - apply counter_ok_frame, IH.
Qed.

(** C7: when the incoming symbol differs from [last_prediction], the call
    returns and leaves the counter at exactly 1, the lock released and
    [last_prediction] at the new symbol, whatever the counter and the
    lock were before (locked, unlocked, or no counter at all); and in a
    reachable session the counter is 0 only in the state that
    [reset_state] produces. *)
Theorem C7_symbol_change_restarts_count :
  (forall (x : string) (s : SignLanguageSystem),
      x <> last_prediction s ->
      stable_frame_count (after_frame x s) = Some 1
      /\ already_locked (after_frame x s) = false
      /\ last_prediction (after_frame x s) = x
      /\ exists r, fst (_handle_prediction x s) = Returned r)
  /\ (forall s : SignLanguageSystem,
        reachable s -> stable_frame_count s = Some 0 ->
        s = after_reset s).
Proof.
  split.
  - intros x [w l c k] Hne. cbn in Hne. unfold after_frame.
    rewrite handle_changed by (apply String.eqb_neq; exact Hne).
    cbn. repeat split. eexists; reflexivity.
  - intros s Hr H0. apply reachable_counter_ok in Hr.
    unfold counter_ok in Hr. rewrite H0 in Hr. rewrite after_reset_eq.
    destruct Hr as [[_ ->]|[[Hc _]|[Hc _]]]; [reflexivity | lia | lia].
Qed.

Lemma C7_symbol_change_restarts_count_witness :
  (stable_frame_count (after_frame "B" (mkSystem "A" "A" (Some 50) true))
   = Some 1
   /\ already_locked (after_frame "B" (mkSystem "A" "A" (Some 50) true))
      = false)
  /\ after_reset init_state = after_reset (after_reset init_state).
Proof.
  split.
  - assert (Hne : "B" <> last_prediction (mkSystem "A" "A" (Some 50) true))
      by (cbn; discriminate).
    destruct (proj1 C7_symbol_change_restarts_count "B" _ Hne)
      as (H1 & H2 & _).
    split; assumption.
  - apply (proj2 C7_symbol_change_restarts_count (after_reset init_state)).
    + apply reach_reset, reach_init.
    + reflexivity.
Defined.

Lemma feed_reachable xs : forall s,
  reachable s -> forallb is_symbol xs = true -> reachable (feed xs s).
Proof.
  induction xs as [|x xs IH]; intros s Hs Hxs; [exact Hs|].
  cbn in Hxs. apply andb_true_iff in Hxs. destruct Hxs as [Hx Hxs].
  cbn [feed fold_left]. apply IH; [|exact Hxs].
  apply reach_frame; assumption.
Qed.

(** ** The confidence *)

(** What a returning call leaves: the symbol it was given as
    [last_prediction], a counter, and the confidence of that counter in
    the reply. *)
Lemma handle_returned x s r s' :
  _handle_prediction x s = (Returned r, s') ->
  last_prediction s' = x
  /\ exists c, stable_frame_count s' = Some c
               /\ confidence r = temporal_confidence c.
Proof.
  destruct s as [w l c k].
  unfold _handle_prediction, bind, get, get_stable_frame_count, when.
  cbn. destruct (String.eqb_spec x l) as [->|Hne]; cbn.
  - destruct k, c as [c|]; cbn; try discriminate.
    + rewrite andb_false_r. cbn. intros [= <- <-]. cbn. eauto.
    + rewrite andb_true_r. destruct (LOCK_THRESHOLD <=? c + 1)%Z; cbn.
      * destruct (l =? "blank"); cbn;
          [destruct (truthy w && negb (endswith w " ")); cbn|];
          intros [= <- <-]; cbn; eauto.
      * intros [= <- <-]. cbn. eauto.
  - intros [= <- <-]. cbn. eauto.
Qed.

(** On the symbol a session already holds, the reply's confidence is
    that of the frozen counter when locked and of the next counter when
    unlocked. *)
Lemma handle_same_confidence x w c k :
  exists r s',
    _handle_prediction x (mkSystem w x (Some c) k) = (Returned r, s')
    /\ confidence r = temporal_confidence (if k then c else c + 1).
Proof.
  destruct k.
  - rewrite handle_locked. eauto.
  - destruct (Z.lt_ge_cases (c + 1) LOCK_THRESHOLD) as [Hlt|Hge].
    + rewrite handle_counting by exact Hlt. eauto.
    + destruct (String.eqb_spec x "blank") as [->|Hx].
      * rewrite handle_commit_blank by exact Hge. cbv zeta. eauto.
      * rewrite handle_commit_letter
          by (try (apply String.eqb_neq; exact Hx); exact Hge).
        eauto.
Qed.

(** The confidence over the counters a session can hold, by evaluation
    of the binary64 operations. *)
Lemma confidence_table :
  forallb (fun n =>
             PyFloat.leb (temporal_confidence (Z.of_nat n))
                         (temporal_confidence (Z.of_nat n + 1))
             && PyFloat.leb (temporal_confidence (Z.of_nat n))
                            (temporal_confidence (Z.of_nat n)))
          (seq 0 51) = true.
Proof. vm_compute. reflexivity. Qed.

Lemma confidence_step c :
  0 <= c <= 50 ->
  PyFloat.leb (temporal_confidence c) (temporal_confidence (c + 1)) = true
  /\ PyFloat.leb (temporal_confidence c) (temporal_confidence c) = true.
Proof.
  intros Hc. pose proof confidence_table as T.
  rewrite forallb_forall in T.
  specialize (T (Z.to_nat c)). rewrite Z2Nat.id in T by lia.
  apply andb_true_iff, T, in_seq. lia.
Qed.

Lemma confidence_full : temporal_confidence 50 = PyFloat.of_int 100.
Proof. vm_compute. reflexivity. Qed.

(** The binary64 value is not always the real quotient: at counter 7 the
    confidence is 14.000000000000002, one unit in the last place above
    the float 14.0. *)
Example confidence_at_7 :
  temporal_confidence 7 = S754_finite false 7881299347898369 (-49)
  /\ PyFloat.of_int 14 = S754_finite false 7881299347898368 (-49).
Proof. split; vm_compute; reflexivity. Qed.

(** C8: the confidence in a reply is [min(100.0, (c / 50) * 100.0)] in
    Python's float arithmetic, [c] being the counter the call leaves; in
    a reachable session, of two consecutive frames carrying the same
    symbol the second never has the lower confidence (in particular
    while unlocked); and the confidence is exactly 100.0 whenever the
    counter the call leaves is at least 50. *)
Theorem C8_confidence_formula_monotone_capped :
  (forall x s r s',
      _handle_prediction x s = (Returned r, s') ->
      exists c, stable_frame_count s' = Some c
                /\ confidence r
                   = PyFloat.min (PyFloat.of_int 100)
                       (PyFloat.mul (PyFloat.truediv c 50)
                                    (PyFloat.of_int 100)))
  /\ (forall x s r1 s1 r2 s2,
         reachable s ->
         _handle_prediction x s = (Returned r1, s1) ->
         _handle_prediction x s1 = (Returned r2, s2) ->
         PyFloat.leb (confidence r1) (confidence r2) = true)
  /\ (forall x s r s' c,
         reachable s ->
         _handle_prediction x s = (Returned r, s') ->
         stable_frame_count s' = Some c -> 50 <= c ->
         confidence r = PyFloat.of_int 100).
Proof.
  split; [|split].
  - intros x s r s' H. apply handle_returned in H.
    destruct H as (_ & c & Hc & Hr). exists c. split; assumption.
  - intros x s r1 s1 r2 s2 Hs H1 H2.
    assert (Hok : counter_ok s1).
    { replace s1 with (after_frame x s) by (unfold after_frame; rewrite H1;
                                            reflexivity).
      apply counter_ok_frame, reachable_counter_ok, Hs. }
    apply handle_returned in H1. destruct H1 as (Hl & c & Hc & Hr1).
    destruct s1 as [w1 l1 c1 k1]. cbn in Hl, Hc. subst l1 c1.
    destruct (handle_same_confidence x w1 c k1) as (r & s' & E & Hr).
    rewrite E in H2. injection H2 as <- <-. rewrite Hr1, Hr.
    unfold counter_ok in Hok. cbn in Hok.
    destruct Hok as [[-> H]|[[Hc ->]|[-> ->]]].
    + injection H as -> -> ->. apply confidence_step. lia.
    + apply confidence_step. lia.
    + apply confidence_step. lia.
  - intros x s r s' c Hs H Hc Hge.
    assert (Hok : counter_ok s').
    { replace s' with (after_frame x s) by (unfold after_frame; rewrite H;
                                            reflexivity).
      apply counter_ok_frame, reachable_counter_ok, Hs. }
    apply handle_returned in H. destruct H as (_ & c' & Hc' & Hr).
    rewrite Hc in Hc'. injection Hc' as <-.
    unfold counter_ok in Hok. rewrite Hc in Hok.
    destruct Hok as [[-> _]|[[Hlt _]|[-> _]]]; try lia.
    rewrite Hr. apply confidence_full.
Qed.

Lemma C8_confidence_formula_monotone_capped_witness :
  PyFloat.leb (temporal_confidence 1) (temporal_confidence 2) = true
  /\ temporal_confidence 50 = PyFloat.of_int 100.
Proof.
  destruct C8_confidence_formula_monotone_capped as (_ & Hmono & Hcap).
  split.
  - apply (Hmono "A" (after_reset init_state)
                 (mkResponse "A" (temporal_confidence 1) "" "A" "")
                 (mkSystem "" "A" (Some 1) false)
                 (mkResponse "A" (temporal_confidence 2) "" "A" "")
                 (mkSystem "" "A" (Some 2) false)).
    + apply reach_reset, reach_init.
    + reflexivity.
    + reflexivity.
  - apply (Hcap "A" (feed (repeat "A" 49) (after_reset init_state))
                (mkResponse "A" (temporal_confidence 50) "A" "A" "")
                (mkSystem "A" "A" (Some 50) true) 50).
    + apply feed_reachable; [apply reach_reset, reach_init | reflexivity].
    + reflexivity.
    + reflexivity.
    + lia.
Defined.

(** ** Committed words *)

Lemma all_chars_app p w v :
  all_chars p (w ++ v) = all_chars p w && all_chars p v.
Proof.
  induction w as [|a w IH]; [reflexivity|].
  cbn. rewrite IH. apply andb_assoc.
Qed.

Lemma length_append w v :
  String.length (w ++ v) = (String.length w + String.length v)%nat.
Proof.
  induction w as [|a w IH]; [reflexivity|]. cbn. rewrite IH. reflexivity.
Qed.

Lemma leading_space_app w v :
  leading_space (w ++ v) = if truthy w then leading_space w else leading_space v.
Proof. destruct w; reflexivity. Qed.

Lemma endswith_cons a w :
  endswith (String a w) " "
  = if truthy w then endswith w " " else is_space a.
Proof.
  destruct w as [|b w].
  - cbn. unfold is_space. destruct (a =? " ")%char; reflexivity.
  - cbn [endswith truthy].
    replace (String a (String b w) =? " ") with false; [reflexivity|].
    symmetry. apply String.eqb_neq. discriminate.
Qed.

Lemma double_space_snoc w c :
  double_space (w ++ String c "")
  = double_space w || (endswith w " " && is_space c).
Proof.
  induction w as [|a w IH];
    [cbn; rewrite andb_false_r; reflexivity|].
  change (String a w ++ String c "") with (String a (w ++ String c "")).
  cbn [double_space]. rewrite IH, leading_space_app, endswith_cons.
  destruct w as [|b w]; cbn [truthy leading_space double_space].
  - cbn. btauto.
  - btauto.
Qed.

Lemma word_ok_letter w c :
  word_ok w -> is_upper c = true -> is_space c = false ->
  word_ok (w ++ String c "").
Proof.
  intros (Hall & Hlead & Hdbl) Hu Hs. repeat split.
  - rewrite all_chars_app, Hall. cbn. unfold letter_or_space.
    rewrite Hu. reflexivity.
  - rewrite leading_space_app. destruct (truthy w); [exact Hlead|exact Hs].
  - rewrite double_space_snoc, Hdbl, Hs. apply andb_false_r.
Qed.

Lemma word_ok_space w :
  word_ok w -> truthy w = true -> endswith w " " = false ->
  word_ok (w ++ " ").
Proof.
  intros (Hall & Hlead & Hdbl) Ht He. repeat split.
  - rewrite all_chars_app, Hall. reflexivity.
  - rewrite leading_space_app, Ht. exact Hlead.
  - rewrite double_space_snoc, Hdbl, He. reflexivity.
Qed.

(** A letter of the alphabet is a one-character string of an upper-case
    character. *)
Lemma member_upper x :
  member x ascii_uppercase = true ->
  exists c, x = String c "" /\ is_upper c = true /\ is_space c = false.
Proof.
  unfold member, ascii_uppercase. cbn [existsb]. intros H.
  repeat (apply orb_true_iff in H; destruct H as [H|H];
          [apply String.eqb_eq in H; subst x; eexists; repeat split|]).
  discriminate.
Qed.

Lemma letter_not_blank x :
  member x ascii_uppercase = true -> (x =? "blank") = false.
Proof.
  intros H. destruct (member_upper x H) as (c & -> & _).
  apply String.eqb_neq. discriminate.
Qed.

(** What one call does to the word: nothing, or the commit of the
    symbol it was given. *)
Lemma handle_word x s :
  let w := current_word s in
  let w' := current_word (after_frame x s) in
  w' = w
  \/ ((x =? "blank") = false /\ w' = w ++ x)
  \/ (x = "blank" /\ truthy w = true /\ endswith w " " = false
      /\ w' = w ++ " ").
Proof.
  destruct s as [w l c k]. unfold after_frame.
  unfold _handle_prediction, bind, get, get_stable_frame_count, when.
  cbn. destruct (x =? l); cbn.
  - destruct k, c as [c|]; cbn; auto.
    + rewrite andb_false_r. cbn. auto.
    + rewrite andb_true_r. destruct (LOCK_THRESHOLD <=? c + 1)%Z; cbn; auto.
      destruct (String.eqb_spec x "blank") as [->|Hx]; cbn; auto.
      destruct (truthy w) eqn:Ht, (endswith w " ") eqn:He; cbn; auto.
      right. right. auto.
  - auto.
Qed.

Lemma word_ok_frame x s :
  is_symbol x = true ->
  word_ok (current_word s) -> word_ok (current_word (after_frame x s)).
Proof.
  intros Hx Hw.
  destruct (handle_word x s) as [->|[[Hb ->]|(_ & Ht & He & ->)]].
  - exact Hw.
  - unfold is_symbol in Hx. rewrite Hb in Hx. cbn in Hx.
    destruct (member_upper x Hx) as (c & -> & Hu & Hs).
    apply word_ok_letter; assumption.
  - apply word_ok_space; assumption.
Qed.

Lemma reachable_word_ok s : reachable s -> word_ok (current_word s).
Proof.
  induction 1 as [|s _ _|s x _ IH Hx].
  - repeat split.
  - repeat split.
  - apply word_ok_frame; assumption.
Qed.

(** C6: when a call commits ['blank'] (it finds the session unlocked and
    leaves it locked), the word it leaves is the old word followed by one
    space exactly when the old word is non-empty and does not end with a
    space, and is the old word unchanged otherwise; and in every
    reachable session the word has no two consecutive spaces and does
    not begin with a space. *)
Theorem C6_blank_commit_single_space :
  (forall s : SignLanguageSystem,
      already_locked s = false ->
      already_locked (after_frame "blank" s) = true ->
      let w := current_word s in
      let w' := current_word (after_frame "blank" s) in
      (w' = w ++ " " <-> (w <> "" /\ endswith w " " = false))
      /\ (w' = w \/ w' = w ++ " "))
  /\ (forall s : SignLanguageSystem,
        reachable s ->
        double_space (current_word s) = false
        /\ leading_space (current_word s) = false).
Proof.
  split.
  - intros [w l c k] Hk Hlock. cbn in Hk. subst k. revert Hlock.
    unfold after_frame.
    destruct (String.eqb_spec "blank" l) as [<-|Hne].
    + destruct c as [c|]; [|rewrite handle_absent; discriminate].
      destruct (Z.lt_ge_cases (c + 1) LOCK_THRESHOLD) as [Hlt|Hge].
      * rewrite handle_counting by exact Hlt. discriminate.
      * rewrite handle_commit_blank by exact Hge. cbn. intros _.
        assert (Happ : w ++ " " <> w).
        { intros E. apply (f_equal String.length) in E.
          rewrite length_append in E. cbn in E. lia. }
        destruct w as [|a w]; [cbn; split; [|auto]|].
        -- split; [discriminate | intros [H _]; congruence].
        -- cbn [truthy andb].
           destruct (endswith (String a w) " ") eqn:He; cbn [negb].
           ++ split; [|auto].
              split; [intros E; symmetry in E; contradiction
                     | intros [_ H]; discriminate].
           ++ split; [|auto].
              split; [intros _; split; [discriminate|reflexivity]
                     | reflexivity].
    + rewrite handle_changed by (apply String.eqb_neq; exact Hne).
      discriminate.
  - intros s Hs. apply reachable_word_ok in Hs.
    destruct Hs as (_ & Hlead & Hdbl). split; assumption.
Qed.

Lemma C6_blank_commit_single_space_witness :
  current_word (after_frame "blank" (mkSystem "A" "blank" (Some 49) false))
  = "A "
  /\ double_space
       (current_word
          (feed (repeat "A" 50 ++ repeat "blank" 50 ++ ["B"]
                 ++ repeat "blank" 50)
                (after_reset init_state))) = false.
Proof.
  destruct C6_blank_commit_single_space as (Hcommit & Hinv). split.
  - pose (s := mkSystem "A" "blank" (Some 49) false).
    assert (H1 : already_locked s = false) by reflexivity.
    assert (H2 : already_locked (after_frame "blank" s) = true)
      by (vm_compute; reflexivity).
    destruct (Hcommit s H1 H2) as [[_ Happend] _].
    apply Happend. split; [discriminate | reflexivity].
  - refine (proj1 (Hinv _ _)). apply feed_reachable.
    + apply reach_reset, reach_init.
    + vm_compute. reflexivity.
Defined.

(** ** The symbols the cascade can emit *)

Lemma letter_items_keys row chars : forall i items,
  letter_items row i chars = Returned items -> map fst items = chars.
Proof.
  induction chars as [|ch chars IH]; intros i items; cbn.
  - intros [= <-]. reflexivity.
  - destruct (getitem row (i + 1)) as [v|e]; [|discriminate].
    destruct (letter_items row (S i) chars) as [its|e] eqn:E; [|discriminate].
    intros [= <-]. cbn. f_equal. eapply IH, E.
Qed.

Lemma prediction_map_keys row items :
  prediction_map row = Returned items ->
  map fst items = "blank" :: ascii_uppercase.
Proof.
  unfold prediction_map.
  destruct (getitem row 0) as [v0|e]; [|discriminate].
  destruct (letter_items row 0 ascii_uppercase) as [its|e] eqn:E;
    [|discriminate].
  intros [= <-]. cbn [map fst]. f_equal. eapply letter_items_keys, E.
Qed.

Lemma insert_desc_in x y l : In x (insert_desc y l) -> x = y \/ In x l.
Proof.
  induction l as [|z l IH]; cbn.
  - intros [<-|[]]. auto.
  - destruct (Qltb (snd y) (snd z)); cbn.
    + intros [<-|H]; [auto|]. destruct (IH H); auto.
    + intros [<-|[<-|H]]; auto.
Qed.

Lemma sorted_desc_in x items : In x (sorted_desc items) -> In x items.
Proof.
  induction items as [|y items IH]; cbn; [auto|].
  intros H. apply insert_desc_in in H. destruct H as [->|H]; auto.
Qed.

Lemma top_symbol_label row y :
  top_symbol row = Returned y -> In y ("blank" :: ascii_uppercase).
Proof.
  unfold top_symbol.
  destruct (prediction_map row) as [items|e] eqn:E; [|discriminate].
  destruct (sorted_desc items) as [|[label v] rest] eqn:S; [discriminate|].
  intros [= <-]. rewrite <- (prediction_map_keys _ _ E).
  apply (in_map fst items (label, v)), sorted_desc_in.
  rewrite S. left. reflexivity.
Qed.

Lemma refine_label {Tensor} (model : Tensor -> outcome (list Q))
      labels input y :
  refine model labels input = Returned y -> In y labels.
Proof.
  unfold refine, getitem.
  destruct (model input) as [res|e]; [|discriminate].
  destruct (argmax res) as [k|e]; [|discriminate].
  destruct (nth_error labels k) as [v|] eqn:E; [|discriminate].
  intros [= <-]. eapply nth_error_In, E.
Qed.

Lemma in_symbols labels y :
  forallb is_symbol labels = true -> In y labels -> is_symbol y = true.
Proof. intros H. rewrite forallb_forall in H. apply H. Qed.

(** Whatever the four models answer, the cascade hands on ['blank'] or a
    letter. *)
Lemma classify_symbol {Tensor} (models : Models Tensor) input y :
  classify models input = Returned y -> is_symbol y = true.
Proof.
  unfold classify.
  destruct (loaded_model models input) as [result|e]; [|discriminate].
  destruct (top_symbol result) as [top|e] eqn:E; [|discriminate].
  destruct (member top group_dru);
    [|destruct (member top group_tkdi); [|destruct (member top group_smn)]].
  - intros H. apply refine_label in H. revert H. apply in_symbols. reflexivity.
  - intros H. apply refine_label in H. revert H. apply in_symbols. reflexivity.
  - intros H. apply refine_label in H. revert H. apply in_symbols. reflexivity.
  - intros [= <-]. apply top_symbol_label in E. revert E.
    apply in_symbols. reflexivity.
Qed.

(** C10: the cascade only ever emits ['blank'] or an upper-case letter,
    and in every session reached from [reset_state] by calls of
    [_handle_prediction] on such symbols, each character of
    [current_word] is an upper-case letter or a space. *)
Theorem C10_word_alphabet :
  (forall (Tensor : Type) (models : Models Tensor) (input : Tensor) y,
      classify models input = Returned y -> is_symbol y = true)
  /\ (forall (s0 : SignLanguageSystem) (xs : list string),
        forallb is_symbol xs = true ->
        all_chars (fun c => is_upper c || is_space c)
                  (current_word (feed xs (after_reset s0))) = true).
Proof.
  split.
  - intros Tensor models input y. apply classify_symbol.
  - intros s0 xs Hxs.
    assert (Hr : reachable (feed xs (after_reset s0))).
    { apply feed_reachable; [|exact Hxs].
      rewrite after_reset_eq. apply (reach_reset init_state), reach_init. }
    apply reachable_word_ok in Hr. exact (proj1 Hr).
Qed.

Lemma C10_word_alphabet_witness :
  all_chars (fun c => is_upper c || is_space c)
    (current_word
       (feed (repeat "H" 50 ++ repeat "I" 50 ++ repeat "blank" 50
              ++ repeat "Y" 50)
             (after_reset init_state))) = true
  /\ current_word
       (feed (repeat "H" 50 ++ repeat "I" 50 ++ repeat "blank" 50
              ++ repeat "Y" 50)
             (after_reset init_state)) = "HI Y".
Proof.
  split.
  - refine (proj2 C10_word_alphabet _ _ _). vm_compute. reflexivity.
  - vm_compute. reflexivity.
Defined.

(** ** The pipeline *)

Lemma Qltb_lt x y : Qltb x y = true <-> (x < y)%Q.
Proof.
  unfold Qltb. rewrite negb_true_iff. split.
  - intros H. apply Qnot_le_lt. intros Hle.
    apply Qle_bool_iff in Hle. congruence.
  - intros H. destruct (Qle_bool y x) eqn:E; [|reflexivity].
    apply Qle_bool_iff in E. exfalso. exact (Qlt_not_le _ _ H E).
Qed.

Lemma Qltb_ge x y : Qltb x y = false <-> (y <= x)%Q.
Proof.
  unfold Qltb. rewrite negb_false_iff. apply Qle_bool_iff.
Qed.

(** The greatest area is below a bound exactly when every area is. *)
Lemma max_of_lt b others : forall first,
  (max_of first others < b)%Q
  <-> Forall (fun v => (v < b)%Q) (first :: others).
Proof.
  induction others as [|v others IH]; intros first; cbn.
  - split; [intros H; repeat constructor; exact H|].
    intros H. inversion H. assumption.
  - change (fold_left (fun m v0 => if Qltb m v0 then v0 else m) others
                      (if Qltb first v then v else first))
      with (max_of (if Qltb first v then v else first) others).
    rewrite IH. destruct (Qltb first v) eqn:E.
    + apply Qltb_lt in E. split; intros H; inversion H as [|? ? Hv Hr]; subst.
      * constructor; [eapply Qlt_trans; eassumption|].
        constructor; assumption.
      * exact Hr.
    + apply Qltb_ge in E. split; intros H; inversion H as [|? ? Hf Hr]; subst.
      * constructor; [exact Hf|].
        constructor; [eapply Qle_lt_trans; eassumption | exact Hr].
      * inversion Hr; subst. constructor; assumption.
Qed.

Lemma no_hand_iff {Mask Tensor} (cv : Vision Mask Tensor) th3 :
  no_hand cv th3 = true
  <-> Forall (fun v => (v < inject_Z 2500)%Q) (contour_areas cv th3).
Proof.
  unfold no_hand. destruct (contour_areas cv th3) as [|a areas].
  - split; [constructor | reflexivity].
  - rewrite Qltb_lt. apply max_of_lt.
Qed.

(** A session that has a counter answers every call. *)
Lemma handle_returns x s :
  stable_frame_count s <> None ->
  exists r s', _handle_prediction x s = (Returned r, s') /\ prediction r = x.
Proof.
  destruct s as [w l [c|] k]; [intros _ | intros H; contradiction H; reflexivity].
  destruct (String.eqb_spec x l) as [->|Hne].
  - destruct k.
    + rewrite handle_locked. eauto.
    + destruct (Z.lt_ge_cases (c + 1) LOCK_THRESHOLD) as [Hlt|Hge].
      * rewrite handle_counting by exact Hlt. eauto.
      * destruct (String.eqb_spec l "blank") as [->|Hx].
        -- rewrite handle_commit_blank by exact Hge. cbv zeta. eauto.
        -- rewrite handle_commit_letter
             by (try (apply String.eqb_neq; exact Hx); exact Hge).
           eauto.
  - rewrite handle_changed by (apply String.eqb_neq; exact Hne). eauto.
Qed.

(** C5: for a payload that decodes to a frame, if the region of interest
    has no pixels, or the binarized region has no contour, or every
    contour of it (so the largest one) has an area below 2500, then
    [process_frame] is exactly [_handle_prediction] on ['blank'], with
    the reply handed back, whatever the four models are; and when the
    session has a counter that call returns a reply for ['blank']. *)
Theorem C5_no_hand_goes_through_blank :
  forall (Mask Tensor : Type) (cv : Vision Mask Tensor)
         (models : Models Tensor) (payload : string) (frame : Frame)
         (s : SignLanguageSystem),
    truthy payload = true ->
    decode_image cv (strip_data_uri payload) = Returned (Some frame) ->
    let roi := region_of_interest (flip frame) in
    (size roi = 0
     \/ contour_areas cv (binarize cv roi) = []
     \/ Forall (fun a => (a < inject_Z 2500)%Q)
               (contour_areas cv (binarize cv roi))) ->
    process_frame cv models payload s
    = (r <- _handle_prediction "blank";; ret (Reply r)) s
    /\ (stable_frame_count s <> None ->
        exists r s',
          process_frame cv models payload s = (Returned (Reply r), s')
          /\ prediction r = "blank").
Proof.
  intros Mask Tensor cv models payload frame s Hp Hd roi H.
  assert (E : process_frame cv models payload s
              = (r <- _handle_prediction "blank";; ret (Reply r)) s).
  { unfold process_frame. rewrite Hp, Hd. cbn [negb]. fold roi.
    destruct (Z.eqb_spec (size roi) 0) as [Hz|Hnz]; [reflexivity|].
    destruct H as [H|[H|H]]; [contradiction| |].
    - unfold no_hand. rewrite H. reflexivity.
    - apply no_hand_iff in H. rewrite H. reflexivity. }
  split; [exact E|].
  intros Hc. rewrite E.
  destruct (handle_returns "blank" s Hc) as (r & s' & Hr & Hpr).
  exists r, s'. unfold bind. rewrite Hr. split; [reflexivity | exact Hpr].
Qed.

Lemma C5_no_hand_goes_through_blank_witness :
  process_frame
    (mkVision unit unit (fun _ => Returned (Some sample_frame))
              (fun _ => tt) (fun _ => [inject_Z 2499; inject_Z 10])
              (fun _ => tt))
    failing_models "frame" (mkSystem "A" "blank" (Some 49) false)
  = (r <- _handle_prediction "blank";; ret (Reply r))
      (mkSystem "A" "blank" (Some 49) false).
Proof.
  refine (proj1 (C5_no_hand_goes_through_blank unit unit _ failing_models
                   "frame" sample_frame _ _ _ _)).
  - reflexivity.
  - reflexivity.
  - right. right. cbn. repeat constructor.
Defined.

(** ** The cascade *)

(** [argmax_from] over the rest of a row whose scanned part [pre] is
    dominated by the current best. *)
Lemma argmax_from_greatest row : forall pre best besti,
  nth_error (pre ++ row) besti = Some best ->
  Forall (fun v => (v <= best)%Q) pre ->
  exists m,
    nth_error (pre ++ row)
              (argmax_from best besti (List.length pre) row) = Some m
    /\ Forall (fun v => (v <= m)%Q) (pre ++ row).
Proof.
  induction row as [|v row IH]; intros pre best besti Hb Hpre.
  - cbn. exists best. rewrite app_nil_r in *. split; assumption.
  - cbn [argmax_from].
    replace (pre ++ v :: row)%list with ((pre ++ [v]) ++ row)%list in *
      by (rewrite <- app_assoc; reflexivity).
    replace (S (List.length pre)) with (List.length (pre ++ [v])%list)
      by (rewrite length_app; cbn; lia).
    destruct (Qltb best v) eqn:E.
    + apply Qltb_lt in E. apply IH.
      * rewrite nth_error_app1 by (rewrite length_app; cbn; lia).
        rewrite nth_error_app2 by lia.
        rewrite Nat.sub_diag. reflexivity.
      * apply Forall_app. split.
        -- eapply Forall_impl; [|exact Hpre]. cbn. intros a Ha.
           eapply Qle_trans; [exact Ha | apply Qlt_le_weak, E].
        -- constructor; [apply Qle_refl | constructor].
    + apply Qltb_ge in E. apply IH; [exact Hb|].
      apply Forall_app. split; [exact Hpre|].
      constructor; [exact E | constructor].
Qed.

(** [np.argmax] picks an entry that no entry of the row exceeds. *)
Lemma argmax_greatest row k :
  argmax row = Returned k ->
  exists m, nth_error row k = Some m /\ Forall (fun v => (v <= m)%Q) row.
Proof.
  destruct row as [|v row]; [discriminate|]. cbn. intros [= <-].
  apply (argmax_from_greatest row [v] v 0%nat); [reflexivity|].
  constructor; [apply Qle_refl | constructor].
Qed.

Lemma argmax_nonempty row :
  row <> [] -> exists k, argmax row = Returned k.
Proof. destruct row; [contradiction|]. intros _. eexists. reflexivity. Qed.

(** C4: when the main model's top symbol is ['D'], the cascade's answer
    is the DRU model's: [group_dru] indexed by the argmax of the DRU
    scores.  On a three-score DRU row that is a label of D, R, U whose
    score no other score of the row exceeds.  The TKDI model has no part
    in it: the answer is the same whatever stands in its place. *)
Theorem C4_top_D_is_settled_by_dru :
  forall (Tensor : Type) (models : Models Tensor) (input : Tensor)
         (result : list Q),
    loaded_model models input = Returned result ->
    top_symbol result = Returned "D" ->
    classify models input
    = refine (loaded_model_dru models) group_dru input
    /\ (forall res,
           loaded_model_dru models input = Returned res ->
           List.length res = 3%nat ->
           exists k label m,
             classify models input = Returned label
             /\ nth_error group_dru k = Some label
             /\ nth_error res k = Some m
             /\ Forall (fun v => (v <= m)%Q) res)
    /\ (forall tkdi : Tensor -> outcome (list Q),
           classify (mkModels Tensor (loaded_model models)
                              (loaded_model_dru models) tkdi
                              (loaded_model_smn models)) input
           = classify models input).
Proof.
  intros Tensor models input result Hm Htop.
  assert (E : classify models input
              = refine (loaded_model_dru models) group_dru input).
  { unfold classify. rewrite Hm, Htop. reflexivity. }
  split; [exact E|]. split.
  - intros res Hres Hlen. rewrite E. unfold refine. rewrite Hres.
    destruct (argmax_nonempty res) as (k & Hk).
    { intros ->. discriminate Hlen. }
    rewrite Hk. destruct (argmax_greatest res k Hk) as (m & Hnth & Hall).
    assert (Hlt : (k < 3)%nat).
    { rewrite <- Hlen. apply nth_error_Some. congruence. }
    unfold getitem.
    destruct (nth_error group_dru k) as [label|] eqn:El.
    + exists k, label, m. repeat split; assumption.
    + apply nth_error_None in El. cbn in El. lia.
  - intros tkdi. unfold classify. cbn [loaded_model loaded_model_dru
                                      loaded_model_tkdi loaded_model_smn].
    rewrite Hm, Htop. reflexivity.
Qed.

Lemma C4_top_D_is_settled_by_dru_witness :
  classify
    (mkModels unit
       (fun _ => Returned (map inject_Z
                   [0; 0; 0; 0; 9; 0; 0; 0; 0; 0; 0; 0; 0; 0;
                    0; 0; 0; 0; 0; 0; 0; 0; 0; 0; 0; 0; 0]))
       (fun _ => Returned (map inject_Z [1; 7; 3]))
       (fun _ => Raised (LibraryError "unused"))
       (fun _ => Returned [])) tt
  = Returned "R".
Proof.
  refine (eq_trans (proj1 (C4_top_D_is_settled_by_dru unit _ tt _ _ _)) _).
  - reflexivity.
  - reflexivity.
  - reflexivity.
Defined.

(** ** Failures *)

Lemma classify_main_raises {Tensor} (models : Models Tensor) input e :
  loaded_model models input = Raised e -> classify models input = Raised e.
Proof. intros H. unfold classify. rewrite H. reflexivity. Qed.

(** An inference failure at a concrete deployment: the exception leaves
    [process_frame]; no result, [None] or other, is returned. *)
Lemma C2_inference_failure_is_not_caught :
  process_frame sample_vision failing_models "frame" (after_reset init_state)
  = (Raised (LibraryError "predict failed"), after_reset init_state)
  /\ forall r s',
       process_frame sample_vision failing_models "frame"
                     (after_reset init_state)
       <> (Returned r, s').
Proof.
  split; [reflexivity|]. intros r s'. discriminate.
Qed.

(** C2, amended: on a frame that shows a hand, an exception raised while
    classifying (by the main model, by a disambiguator, or by the
    indexing of their scores) is not caught: it leaves [process_frame],
    and the [/predict] route, as that exception; the session fields are
    the same after the call as before it. *)
Theorem C2_inference_failure_propagates :
  forall (Mask Tensor : Type) (cv : Vision Mask Tensor)
         (models : Models Tensor) (payload : string) (frame : Frame)
         (s : SignLanguageSystem) (e : exn),
    truthy payload = true ->
    decode_image cv (strip_data_uri payload) = Returned (Some frame) ->
    let roi := region_of_interest (flip frame) in
    size roi <> 0 ->
    no_hand cv (binarize cv roi) = false ->
    (loaded_model models (to_input cv (binarize cv roi)) = Raised e
     \/ classify models (to_input cv (binarize cv roi)) = Raised e) ->
    process_frame cv models payload s = (Raised e, s)
    /\ predict cv models (Some payload) s = (Raised e, s).
Proof.
  intros Mask Tensor cv models payload frame s e Hp Hd roi Hsz Hh Hfail.
  assert (Hc : classify models (to_input cv (binarize cv roi)) = Raised e).
  { destruct Hfail as [H|H]; [apply classify_main_raises|]; exact H. }
  assert (E : process_frame cv models payload s = (Raised e, s)).
  { unfold process_frame. rewrite Hp, Hd. cbn [negb]. fold roi.
    destruct (Z.eqb_spec (size roi) 0) as [Hz|_]; [contradiction|].
    rewrite Hh. unfold bind, call. rewrite Hc. reflexivity. }
  split; [exact E|]. unfold predict, bind. rewrite E. reflexivity.
Qed.

Lemma C2_inference_failure_propagates_witness :
  process_frame sample_vision failing_models "frame"
                (mkSystem "HI" "I" (Some 50) true)
  = (Raised (LibraryError "predict failed"),
     mkSystem "HI" "I" (Some 50) true).
Proof.
  refine (proj1 (C2_inference_failure_propagates unit unit sample_vision
                   failing_models "frame" sample_frame _
                   (LibraryError "predict failed") _ _ _ _ _)).
  - reflexivity.
  - reflexivity.
  - discriminate.
  - reflexivity.
  - left. reflexivity.
Defined.

(** C9: a non-empty payload whose decoding raises, or yields no frame,
    makes [process_frame] return [None], which the route answers with
    "Processing failed" and status 500, and every session field is as
    before the call; the empty payload is answered by the "No image
    data" dictionary, the session untouched as well. *)
Theorem C9_decode_failure_leaves_session :
  forall (Mask Tensor : Type) (cv : Vision Mask Tensor)
         (models : Models Tensor) (s : SignLanguageSystem),
    (forall payload : string,
        truthy payload = true ->
        ((exists e, decode_image cv (strip_data_uri payload) = Raised e)
         \/ decode_image cv (strip_data_uri payload) = Returned None) ->
        process_frame cv models payload s = (Returned PyNone, s)
        /\ predict cv models (Some payload) s
           = (Returned (ErrorBody "Processing failed", 500), s))
    /\ process_frame cv models "" s
       = (Returned (ErrorDict "No image data" 0), s).
Proof.
  intros Mask Tensor cv models s. split; [|reflexivity].
  intros payload Hp Hfail.
  assert (E : process_frame cv models payload s = (Returned PyNone, s)).
  { unfold process_frame. rewrite Hp. cbn [negb].
    destruct Hfail as [[e H]|H]; rewrite H; reflexivity. }
  split; [exact E|]. unfold predict, bind. rewrite E. reflexivity.
Qed.

Lemma C9_decode_failure_leaves_session_witness :
  process_frame
    (mkVision unit unit (fun _ => Raised (LibraryError "Incorrect padding"))
              (fun _ => tt) (fun _ => []) (fun _ => tt))
    failing_models "data:image/png;base64,@@@"
    (mkSystem "HI" "I" (Some 50) true)
  = (Returned PyNone, mkSystem "HI" "I" (Some 50) true).
Proof.
  refine (proj1 (proj1 (C9_decode_failure_leaves_session unit unit _
                          failing_models _) _ _ _)).
  - reflexivity.
  - left. eexists. reflexivity.
Defined.

(** * Further properties *)

(** ** Sessions with and without a counter *)

Lemma feed_keeps_counter xs : forall s,
  stable_frame_count s <> None -> stable_frame_count (feed xs s) <> None.
Proof.
  induction xs as [|x xs IH]; intros s Hs; [exact Hs|].
  cbn [feed fold_left]. apply IH. unfold after_frame.
  destruct (handle_returns x s Hs) as (r & s' & E & _).
  pose proof (handle_returned x s r s' E) as (_ & c & Hc & _).
  rewrite E. cbn. congruence.
Qed.

(** X1: once [reset_state] has run, no call of [_handle_prediction]
    raises, whatever strings are fed before it: every call returns a
    reply for the symbol it was given. *)
Theorem reset_makes_every_call_return :
  forall (s0 : SignLanguageSystem) (xs : list string) (x : string),
    exists r s',
      _handle_prediction x (feed xs (after_reset s0)) = (Returned r, s')
      /\ prediction r = x.
Proof.
  intros s0 xs x. apply handle_returns, feed_keeps_counter.
  rewrite after_reset_eq. discriminate.
Qed.

(** X2: straight after construction, with no reset, frames of ['blank']
    raise [AttributeError] one after the other and leave the session as
    constructed; the first frame of any other symbol is answered and
    creates the counter, and from then on no call raises. *)
Theorem unreset_session_raises_until_first_symbol :
  (forall n : nat,
      feed (repeat "blank" n) init_state = init_state
      /\ _handle_prediction "blank" (feed (repeat "blank" n) init_state)
         = (Raised (AttributeError "stable_frame_count"), init_state))
  /\ (forall (n : nat) (x : string) (xs : list string) (y : string),
        x <> "blank" ->
        after_frame x (feed (repeat "blank" n) init_state)
        = mkSystem "" x (Some 1) false
        /\ exists r,
             fst (_handle_prediction y
                    (feed (repeat "blank" n ++ x :: xs) init_state))
             = Returned r).
Proof.
  assert (Hstuck : forall n, feed (repeat "blank" n) init_state = init_state).
  { induction n as [|n IH]; [reflexivity|]. cbn [repeat feed fold_left].
    unfold after_frame at 2. unfold init_state at 1.
    rewrite handle_absent. exact IH. }
  split.
  - intros n. rewrite Hstuck. split; [reflexivity|]. apply handle_absent.
  - intros n x xs y Hx. rewrite feed_app, Hstuck. cbn [feed fold_left].
    assert (E : after_frame x init_state = mkSystem "" x (Some 1) false).
    { unfold after_frame, init_state.
      rewrite handle_changed by (apply String.eqb_neq; exact Hx).
      reflexivity. }
    split; [exact E|].
    fold (feed xs (after_frame x init_state)). rewrite E.
    destruct (handle_returns y (feed xs (mkSystem "" x (Some 1) false)))
      as (r & s' & Hr & _).
    { apply feed_keeps_counter. discriminate. }
    exists r. rewrite Hr. reflexivity.
Qed.

Lemma unreset_session_raises_until_first_symbol_witness :
  after_frame "A" (feed (repeat "blank" 3) init_state)
  = mkSystem "" "A" (Some 1) false.
Proof.
  refine (proj1 (proj2 unreset_session_raises_until_first_symbol
                   3%nat "A" [] "blank" _)).
  discriminate.
Defined.

(** ** Holding a symbol, from any session *)

Lemma handle_commit x w c :
  LOCK_THRESHOLD <= c + 1 ->
  _handle_prediction x (mkSystem w x (Some c) false)
  = (Returned (mkResponse x (temporal_confidence (c + 1)) (commit x w) x ""),
     mkSystem (commit x w) x (Some (c + 1)) true).
Proof.
  intros H. unfold commit. destruct (String.eqb_spec x "blank") as [->|Hx].
  - rewrite handle_commit_blank by exact H. reflexivity.
  - rewrite handle_commit_letter
      by (try (apply String.eqb_neq; exact Hx); exact H).
    reflexivity.
Qed.

Lemma feed_change_below s x n :
  x <> last_prediction s -> (1 <= n <= 49)%nat ->
  feed (repeat x n) s = mkSystem (current_word s) x (Some (Z.of_nat n)) false.
Proof.
  intros Hx Hn. destruct s as [w l c k]. cbn in Hx.
  destruct n as [|n]; [lia|].
  cbn [repeat feed fold_left]. unfold after_frame at 2.
  rewrite handle_changed by (apply String.eqb_neq; exact Hx). cbn [snd].
  fold (feed (repeat x n) (mkSystem w x (Some 1) false)).
  rewrite feed_counting by (unfold LOCK_THRESHOLD; lia).
  cbn [current_word]. f_equal. f_equal. lia.
Qed.

Lemma feed_change_lock s x n :
  x <> last_prediction s -> (50 <= n)%nat ->
  feed (repeat x n) s = mkSystem (commit x (current_word s)) x (Some 50) true.
Proof.
  intros Hx Hn. replace n with (49 + S (n - 50))%nat by lia.
  rewrite repeat_app, feed_app.
  rewrite (feed_change_below s x 49); [| exact Hx | lia].
  cbn [repeat feed fold_left]. unfold after_frame at 2.
  rewrite handle_commit by (unfold LOCK_THRESHOLD; lia).
  cbn [snd]. apply feed_locked.
Qed.

(** X3: from any session, locked or not, a symbol other than the one
    last seen changes nothing in the word while it is held for fewer
    than 50 frames; held for 50 frames or more it is committed once:
    the session ends locked on it with counter 50 and the word the
    commit leaves (the symbol appended, or the space rule for
    ['blank']). *)
Theorem held_symbol_commits_at_fifty :
  forall (s : SignLanguageSystem) (x : string),
    x <> last_prediction s ->
    (forall n, (n <= 49)%nat ->
       current_word (feed (repeat x n) s) = current_word s)
    /\ (forall n, (50 <= n)%nat ->
          feed (repeat x n) s
          = mkSystem (commit x (current_word s)) x (Some 50) true).
Proof.
  intros s x Hx. split.
  - intros [|n] Hn; [reflexivity|].
    rewrite feed_change_below; [reflexivity | exact Hx | lia].
  - intros n Hn. apply feed_change_lock; assumption.
Qed.

Lemma held_symbol_commits_at_fifty_witness :
  feed (repeat "blank" 75) (mkSystem "HI" "I" (Some 50) true)
  = mkSystem "HI " "blank" (Some 50) true.
Proof.
  refine (proj2 (held_symbol_commits_at_fifty
                   (mkSystem "HI" "I" (Some 50) true) "blank" _)
                75%nat _).
  - discriminate.
  - apply Nat.leb_le. reflexivity.
Defined.

(** A stream whose runs all stay below the threshold only counts. *)
Lemma feed_runs_below xs : forall w prev run c,
  0 <= c <= Z.of_nat run ->
  runs_below 50 prev run xs = true ->
  current_word (feed xs (mkSystem w prev (Some c) false)) = w.
Proof.
  induction xs as [|x xs IH]; intros w prev run c Hc Hruns; [reflexivity|].
  revert Hruns. cbn [runs_below feed fold_left]. unfold after_frame at 2.
  destruct (String.eqb_spec x prev) as [->|Hne]; intros Hruns;
    apply andb_true_iff in Hruns; destruct Hruns as [Hlt Hruns];
    apply Nat.ltb_lt in Hlt.
  - rewrite handle_counting by (unfold LOCK_THRESHOLD; lia). cbn [snd].
    apply (IH w prev (S run)); [lia | exact Hruns].
  - rewrite handle_changed by (apply String.eqb_neq; exact Hne). cbn [snd].
    apply (IH w x 1%nat); [lia | exact Hruns].
Qed.

(** X4: after a reset, a stream of symbols in which nothing is held for
    50 consecutive frames, however long the stream, commits nothing: the
    word is still empty. *)
Theorem flicker_commits_nothing :
  forall (s0 : SignLanguageSystem) (xs : list string),
    runs_below 50 "blank" 0 xs = true ->
    current_word (feed xs (after_reset s0)) = "".
Proof.
  intros s0 xs H. rewrite after_reset_eq.
  apply (feed_runs_below xs "" "blank" 0%nat 0); [lia | exact H].
Qed.

Lemma flicker_commits_nothing_witness :
  current_word
    (feed (repeat "A" 49 ++ repeat "B" 49 ++ repeat "A" 49 ++ repeat "blank" 49)
          (after_reset init_state)) = "".
Proof.
  refine (flicker_commits_nothing init_state _ _).
  vm_compute. reflexivity.
Defined.

(** ** Growth of the word *)

Lemma append_empty_r w : w ++ "" = w.
Proof. induction w as [|a w IH]; [reflexivity|]. cbn. rewrite IH. reflexivity. Qed.

Lemma append_assoc_string u v w : (u ++ v) ++ w = u ++ (v ++ w).
Proof. induction u as [|a u IH]; [reflexivity|]. cbn. rewrite IH. reflexivity. Qed.

Lemma handle_appends x s :
  exists suffix, current_word (after_frame x s) = current_word s ++ suffix.
Proof.
  destruct (handle_word x s) as [H|[[_ H]|(_ & _ & _ & H)]].
  - exists "". rewrite append_empty_r. exact H.
  - exists x. exact H.
  - exists " ". exact H.
Qed.

Lemma commit_length x w :
  is_symbol x = true ->
  (String.length (commit x w) <= String.length w + 1)%nat.
Proof.
  intros Hx. unfold commit, is_symbol in *.
  destruct (x =? "blank").
  - destruct (truthy w && negb (endswith w " ")).
    + rewrite length_append. cbn. lia.
    + lia.
  - cbn in Hx. destruct (member_upper x Hx) as (c & -> & _).
    rewrite length_append. cbn. lia.
Qed.

Lemma progress_frame x s :
  is_symbol x = true -> counter_ok s ->
  progress (after_frame x s) <= progress s + 1.
Proof.
  intros Hx. destruct s as [w l c k]. unfold counter_ok, after_frame.
  cbn [stable_frame_count already_locked]. intros H.
  destruct (String.eqb_spec x l) as [->|Hne].
  - destruct c as [c|].
    + destruct H as [[-> H]|[[Hc ->]|[-> ->]]].
      * injection H as -> -> ->. rewrite handle_counting by (cbv; reflexivity).
        unfold progress. cbn. lia.
      * destruct (Z.eq_dec c 49) as [->|Hc49].
        -- rewrite handle_commit by (cbv; discriminate).
           unfold progress.
           cbn [snd current_word stable_frame_count already_locked].
           pose proof (commit_length l w Hx). lia.
        -- rewrite handle_counting by (unfold LOCK_THRESHOLD; lia).
           unfold progress.
           cbn [snd current_word stable_frame_count already_locked]. lia.
      * rewrite handle_locked. cbn [snd]. lia.
    + injection H as -> -> ->. rewrite handle_absent. cbn [snd]. lia.
  - rewrite handle_changed by (apply String.eqb_neq; exact Hne).
    unfold progress.
    cbn [snd current_word stable_frame_count already_locked].
    destruct c as [c|]; [|lia].
    destruct H as [[-> _]|[[Hc ->]|[-> ->]]]; try destruct k; lia.
Qed.

Lemma progress_feed xs : forall s,
  reachable s -> forallb is_symbol xs = true ->
  progress (feed xs s) <= progress s + Z.of_nat (List.length xs).
Proof.
  induction xs as [|x xs IH]; intros s Hs Hxs; [cbn; lia|].
  cbn in Hxs. apply andb_true_iff in Hxs. destruct Hxs as [Hx Hxs].
  cbn [feed fold_left List.length].
  pose proof (progress_frame x s Hx (reachable_counter_ok s Hs)) as H1.
  pose proof (IH (after_frame x s) (reach_frame s x Hs Hx) Hxs) as H2.
  unfold feed in H2. lia.
Qed.

(** X5: [_handle_prediction] never trims or rewrites the word: after any
    calls on any strings the old word is still the beginning of the new
    one.  And the word cannot grow faster than one character per 50
    frames: after a reset, [n] frames of symbols leave at most [n / 50]
    characters. *)
Theorem word_grows_by_appending_one_per_fifty :
  (forall (xs : list string) (s : SignLanguageSystem),
      exists suffix, current_word (feed xs s) = current_word s ++ suffix)
  /\ (forall (s0 : SignLanguageSystem) (xs : list string),
        forallb is_symbol xs = true ->
        50 * Z.of_nat (String.length (current_word (feed xs (after_reset s0))))
        <= Z.of_nat (List.length xs)).
Proof.
  split.
  - induction xs as [|x xs IH]; intros s.
    + exists "". symmetry. apply append_empty_r.
    + cbn [feed fold_left]. destruct (IH (after_frame x s)) as (v & Hv).
      destruct (handle_appends x s) as (u & Hu).
      exists (u ++ v). unfold feed in Hv. rewrite Hv, Hu.
      apply append_assoc_string.
  - intros s0 xs Hxs.
    assert (Hr : reachable (after_reset s0)).
    { rewrite after_reset_eq. apply (reach_reset init_state), reach_init. }
    pose proof (progress_feed xs (after_reset s0) Hr Hxs) as H.
    pose proof (reachable_counter_ok _ (feed_reachable xs _ Hr Hxs)) as Hok.
    revert H Hok. unfold progress, counter_ok.
    generalize (feed xs (after_reset s0)). intros [w l c k].
    rewrite after_reset_eq.
    cbn [current_word stable_frame_count already_locked String.length].
    destruct c as [c|]; [|lia].
    intros H [[-> _]|[[Hc ->]|[-> ->]]]; try destruct k; lia.
Qed.

Lemma word_grows_by_appending_one_per_fifty_witness :
  50 * Z.of_nat (String.length
                   (current_word (feed (repeat "A" 50 ++ repeat "B" 49)
                                       (after_reset init_state))))
  <= 99.
Proof.
  refine (proj2 word_grows_by_appending_one_per_fifty init_state
                (repeat "A" 50 ++ repeat "B" 49)%list _).
  vm_compute. reflexivity.
Defined.

(** X6: in every reachable session the counter, when it exists, lies
    between 0 and 50, and the session is locked exactly when the counter
    is 50: the counter is frozen at the threshold while locked and never
    passes it. *)
Theorem counter_bounded_and_locked_at_fifty :
  forall s : SignLanguageSystem,
    reachable s ->
    (forall c, stable_frame_count s = Some c -> 0 <= c <= 50)
    /\ (already_locked s = true <-> stable_frame_count s = Some 50).
Proof.
  intros s Hs. apply reachable_counter_ok in Hs.
  unfold counter_ok in Hs. destruct s as [w l c k].
  cbn [stable_frame_count already_locked] in *.
  destruct c as [c|].
  - destruct Hs as [[-> H]|[[Hc ->]|[-> ->]]].
    + injection H as -> -> ->.
      split; [intros c [= <-]; lia | split; discriminate].
    + split; [intros c' [= <-]; lia|].
      split; [discriminate | intros [= ->]; lia].
    + split; [intros c' [= <-]; lia | split; reflexivity].
  - injection Hs as -> -> ->.
    split; [discriminate | split; discriminate].
Qed.

Lemma counter_bounded_and_locked_at_fifty_witness :
  already_locked (feed (repeat "A" 120) (after_reset init_state)) = true
  <-> stable_frame_count (feed (repeat "A" 120) (after_reset init_state))
      = Some 50.
Proof.
  refine (proj2 (counter_bounded_and_locked_at_fifty _ _)).
  apply feed_reachable; [apply reach_reset, reach_init|].
  vm_compute. reflexivity.
Defined.

(** ** Replies *)

Lemma handle_reply_fields x s r s' :
  _handle_prediction x s = (Returned r, s') ->
  prediction r = x /\ character r = x /\ sentence r = ""
  /\ word r = current_word s'.
Proof.
  destruct s as [w l c k].
  unfold _handle_prediction, bind, get, get_stable_frame_count, when.
  cbn. destruct (x =? l); cbn.
  - destruct k, c as [c|]; cbn; try discriminate.
    + rewrite andb_false_r. cbn. intros [= <- <-]. cbn. auto.
    + rewrite andb_true_r. destruct (LOCK_THRESHOLD <=? c + 1)%Z; cbn.
      * destruct (x =? "blank"); cbn;
          [destruct (truthy w && negb (endswith w " ")); cbn|];
          intros [= <- <-]; cbn; auto.
      * intros [= <- <-]. cbn. auto.
  - intros [= <- <-]. cbn. auto.
Qed.

(** A call that raises has changed nothing, and raises for the missing
    counter. *)
Lemma handle_raised x s e s' :
  _handle_prediction x s = (Raised e, s') ->
  s' = s /\ e = AttributeError "stable_frame_count"
  /\ stable_frame_count s = None /\ x = last_prediction s.
Proof.
  destruct s as [w l c k].
  destruct (String.eqb_spec x l) as [->|Hne].
  - destruct c as [c|].
    + destruct (handle_returns l (mkSystem w l (Some c) k))
        as (r & s1 & E & _); [discriminate|].
      rewrite E. discriminate.
    + unfold _handle_prediction, bind, get, get_stable_frame_count, when.
      cbn. rewrite String.eqb_refl. destruct k; cbn;
        intros [= <- <-]; auto.
  - rewrite handle_changed by (apply String.eqb_neq; exact Hne).
    discriminate.
Qed.

Lemma confidence_range_table :
  forallb (fun n =>
             PyFloat.leb (PyFloat.of_int 0) (temporal_confidence (Z.of_nat n))
             && PyFloat.leb (temporal_confidence (Z.of_nat n))
                            (PyFloat.of_int 100)
             && ((50 <=? n)%nat
                 || PyFloat.ltb (temporal_confidence (Z.of_nat n))
                                (PyFloat.of_int 100)))
          (seq 0 51) = true.
Proof. vm_compute. reflexivity. Qed.

Lemma confidence_range c :
  0 <= c <= 50 ->
  PyFloat.leb (PyFloat.of_int 0) (temporal_confidence c) = true
  /\ PyFloat.leb (temporal_confidence c) (PyFloat.of_int 100) = true
  /\ (c < 50 ->
      PyFloat.ltb (temporal_confidence c) (PyFloat.of_int 100) = true).
Proof.
  intros Hc. pose proof confidence_range_table as T.
  rewrite forallb_forall in T.
  specialize (T (Z.to_nat c)). rewrite Z2Nat.id in T by lia.
  assert (Hin : In (Z.to_nat c) (seq 0 51)) by (apply in_seq; lia).
  apply T in Hin. apply andb_true_iff in Hin. destruct Hin as [Hin H3].
  apply andb_true_iff in Hin. destruct Hin as [H1 H2].
  repeat split; try assumption.
  intros Hlt. apply orb_true_iff in H3. destruct H3 as [H3|H3]; [|exact H3].
  apply Nat.leb_le in H3. lia.
Qed.

(** X7: a reply of [_handle_prediction] repeats the symbol it was given
    as [prediction] and [character], has an empty [sentence], and
    carries the word as the call leaves it, a commit made by this very
    call included.  In a reachable session its confidence lies between
    0.0 and 100.0, and is 100.0 exactly when the call leaves the session
    locked. *)
Theorem reply_matches_session :
  forall (s : SignLanguageSystem) (x : string) (r : Response)
         (s' : SignLanguageSystem),
    reachable s ->
    _handle_prediction x s = (Returned r, s') ->
    prediction r = x /\ character r = x /\ sentence r = ""
    /\ word r = current_word s'
    /\ PyFloat.leb (PyFloat.of_int 0) (confidence r) = true
    /\ PyFloat.leb (confidence r) (PyFloat.of_int 100) = true
    /\ (confidence r = PyFloat.of_int 100 <-> already_locked s' = true).
Proof.
  intros s x r s' Hs H.
  destruct (handle_reply_fields x s r s' H) as (H1 & H2 & H3 & H4).
  repeat (split; [assumption|]).
  assert (Hok : counter_ok s').
  { replace s' with (after_frame x s)
      by (unfold after_frame; rewrite H; reflexivity).
    apply counter_ok_frame, reachable_counter_ok, Hs. }
  apply handle_returned in H. destruct H as (_ & c & Hc & Hr).
  unfold counter_ok in Hok. rewrite Hc in Hok. rewrite Hr.
  assert (Hrange : 0 <= c <= 50) by (destruct Hok as [[-> _]|[[? _]|[-> _]]]; lia).
  destruct (confidence_range c Hrange) as (R1 & R2 & R3).
  repeat (split; [assumption|]).
  destruct Hok as [[-> Hs']|[[Hlt Hk]|[-> Hk]]].
  - rewrite Hs'. cbn [already_locked]. split; [|discriminate].
    intros E. specialize (R3 ltac:(lia)). rewrite E in R3.
    vm_compute in R3. discriminate.
  - rewrite Hk. split; [|discriminate].
    intros E. specialize (R3 ltac:(lia)). rewrite E in R3.
    vm_compute in R3. discriminate.
  - rewrite Hk. split; [reflexivity|]. intros _. apply confidence_full.
Qed.

Lemma reply_matches_session_witness :
  word (mkResponse "I" (temporal_confidence 50) "HI" "I" "") = "HI"
  /\ confidence (mkResponse "I" (temporal_confidence 50) "HI" "I" "")
     = PyFloat.of_int 100.
Proof.
  destruct (reply_matches_session
              (feed (repeat "H" 50 ++ repeat "I" 49) (after_reset init_state))
              "I" (mkResponse "I" (temporal_confidence 50) "HI" "I" "")
              (mkSystem "HI" "I" (Some 50) true))
    as (_ & _ & _ & Hw & _ & _ & Hc).
  - apply feed_reachable; [apply reach_reset, reach_init|].
    vm_compute. reflexivity.
  - vm_compute. reflexivity.
  - split; [exact Hw | apply Hc; reflexivity].
Defined.

(** ** Frames and the session *)

(** Every path through [process_frame] either leaves the session alone
    or makes one call of [_handle_prediction] on a symbol. *)
Lemma process_frame_session {Mask Tensor} (cv : Vision Mask Tensor)
      (models : Models Tensor) payload s :
  (snd (process_frame cv models payload s) = s
   /\ forall r, fst (process_frame cv models payload s) <> Returned (Reply r))
  \/ exists y,
       is_symbol y = true
       /\ process_frame cv models payload s
          = (r <- _handle_prediction y;; ret (Reply r)) s.
Proof.
  unfold process_frame.
  destruct (truthy payload); cbn [negb]; [|left; split; [reflexivity|discriminate]].
  destruct (decode_image cv (strip_data_uri payload)) as [[frame|]|e];
    try (left; split; [reflexivity|discriminate]).
  destruct (size (region_of_interest (flip frame)) =? 0)%Z;
    [right; exists "blank"; split; reflexivity|].
  destruct (no_hand cv _); [right; exists "blank"; split; reflexivity|].
  unfold bind at 1, call.
  destruct (classify models _) as [y|e] eqn:E.
  - right. exists y. split; [eapply classify_symbol, E | reflexivity].
  - left. split; [reflexivity|discriminate].
Qed.

Lemma reply_call_state y s :
  snd ((r <- _handle_prediction y;; ret (Reply r)) s) = after_frame y s.
Proof.
  unfold bind, after_frame, ret.
  destruct (_handle_prediction y s) as [[r|e] s']; reflexivity.
Qed.

(** X8: whatever the decoder, the image operations and the four models
    do, a frame leaves a reachable session reachable, through
    [process_frame] and through the [/predict] route alike; so the
    session invariants hold under any traffic: the word is made of
    upper-case letters and single inner spaces, and the counter never
    passes 50. *)
Theorem frames_keep_session_invariants :
  forall (Mask Tensor : Type) (cv : Vision Mask Tensor)
         (models : Models Tensor) (payload : string) (data : option string)
         (s : SignLanguageSystem),
    reachable s ->
    let s1 := snd (process_frame cv models payload s) in
    let s2 := snd (predict cv models data s) in
    (reachable s1 /\ word_ok (current_word s1) /\ counter_ok s1)
    /\ (reachable s2 /\ word_ok (current_word s2) /\ counter_ok s2).
Proof.
  intros Mask Tensor cv models payload data s Hs.
  assert (Hpf : forall p, reachable (snd (process_frame cv models p s))).
  { intros p. destruct (process_frame_session cv models p s)
      as [[E _]|(y & Hy & E)].
    - rewrite E. exact Hs.
    - rewrite E, reply_call_state. apply reach_frame; assumption. }
  assert (Hrt : reachable (snd (predict cv models data s))).
  { destruct data as [image|]; [|exact Hs].
    unfold predict, bind. specialize (Hpf image).
    destruct (process_frame cv models image s) as [[result|e] s'];
      [destruct (result_truthy result)|]; exact Hpf. }
  cbv zeta. split; (split; [|split]);
    auto using reachable_word_ok, reachable_counter_ok.
Qed.

Lemma frames_keep_session_invariants_witness :
  reachable (snd (process_frame sample_vision failing_models "frame"
                                (after_reset init_state))).
Proof.
  refine (proj1 (proj1 (frames_keep_session_invariants unit unit
                          sample_vision failing_models "frame" None
                          (after_reset init_state) _))).
  apply reach_reset, reach_init.
Defined.

Lemma process_frame_unchanged {Mask Tensor} (cv : Vision Mask Tensor)
      (models : Models Tensor) payload s s' o :
  process_frame cv models payload s = (o, s') ->
  (forall r, o <> Returned (Reply r)) ->
  s' = s.
Proof.
  intros H Hno.
  destruct (process_frame_session cv models payload s)
    as [[E _]|(y & _ & E)].
  - rewrite H in E. exact E.
  - rewrite H in E. unfold bind, ret in E.
    destruct (_handle_prediction y s) as [[r|e] s1] eqn:Ey.
    + injection E as -> ->. exfalso. exact (Hno r eq_refl).
    + injection E as -> ->. apply handle_raised in Ey. exact (proj1 Ey).
Qed.

(** X9: a frame is all or nothing.  Unless [process_frame] returns a
    reply of [_handle_prediction], that is whenever it returns [None] or
    the error dictionary or raises, every session field is as it was
    before the call. *)
Theorem frame_without_reply_changes_nothing :
  forall (Mask Tensor : Type) (cv : Vision Mask Tensor)
         (models : Models Tensor) (payload : string)
         (s s' : SignLanguageSystem) (o : outcome FrameResult),
    process_frame cv models payload s = (o, s') ->
    (forall r, o <> Returned (Reply r)) ->
    s' = s.
Proof.
  intros Mask Tensor cv models payload s s' o.
  apply process_frame_unchanged.
Qed.

Lemma frame_without_reply_changes_nothing_witness :
  snd (process_frame
         (mkVision unit unit (fun _ => Returned (Some sample_frame))
                   (fun _ => tt) (fun _ => []) (fun _ => tt))
         failing_models "frame" init_state)
  = init_state.
Proof.
  refine (frame_without_reply_changes_nothing unit unit
            (mkVision unit unit (fun _ => Returned (Some sample_frame))
                      (fun _ => tt) (fun _ => []) (fun _ => tt))
            failing_models "frame" init_state _
            (Raised (AttributeError "stable_frame_count")) _ _).
  - reflexivity.
  - intros r. discriminate.
Defined.

(** X10: the [/predict] route answers 400 "No image data" exactly when
    the request has no image, 500 "Processing failed" exactly when
    [process_frame] returned [None], and 200 with the result otherwise;
    a 400 or 500 answer leaves the session untouched.  An image that is
    the empty string is answered 200, with the "No image data"
    dictionary as body. *)
Theorem route_statuses :
  forall (Mask Tensor : Type) (cv : Vision Mask Tensor)
         (models : Models Tensor) (s : SignLanguageSystem),
    (forall data body status s',
        predict cv models data s = (Returned (body, status), s') ->
        (status = 400 /\ data = None
         /\ body = ErrorBody "No image data" /\ s' = s)
        \/ (status = 500 /\ body = ErrorBody "Processing failed" /\ s' = s
            /\ exists image,
                 data = Some image
                 /\ process_frame cv models image s = (Returned PyNone, s))
        \/ (status = 200
            /\ exists image result,
                 data = Some image /\ body = ResultBody result
                 /\ result <> PyNone
                 /\ process_frame cv models image s = (Returned result, s')))
    /\ predict cv models (Some "") s
       = (Returned (ResultBody (ErrorDict "No image data" 0), 200), s).
Proof.
  intros Mask Tensor cv models s. split; [|reflexivity].
  intros [image|] body status s'.
  - unfold predict, bind, ret.
    destruct (process_frame cv models image s) as [[result|e] s1] eqn:E;
      [|discriminate].
    destruct result as [err conf| |r]; cbn [result_truthy];
      intros [= <- <- <-].
    + right. right. split; [reflexivity|].
      exists image, (ErrorDict err conf).
      split; [reflexivity|]. split; [reflexivity|].
      split; [discriminate | exact E].
    + right. left.
      assert (s1 = s).
      { eapply process_frame_unchanged; [exact E|].
        intros r. discriminate. }
      subst s1. repeat split. exists image. split; [reflexivity | exact E].
    + right. right. split; [reflexivity|].
      exists image, (Reply r).
      split; [reflexivity|]. split; [reflexivity|].
      split; [discriminate | exact E].
  - unfold predict, ret. intros [= <- <- <-]. left. repeat split.
Qed.

Lemma route_statuses_witness :
  (200 = 400 /\ Some "frame" = None
   /\ ResultBody (Reply (mkResponse "blank" (temporal_confidence 1) "" "blank" ""))
      = ErrorBody "No image data"
   /\ mkSystem "" "blank" (Some 1) false = after_reset init_state)
  \/ (200 = 500
      /\ ResultBody (Reply (mkResponse "blank" (temporal_confidence 1) ""
                                       "blank" ""))
         = ErrorBody "Processing failed"
      /\ mkSystem "" "blank" (Some 1) false = after_reset init_state
      /\ exists image,
           Some "frame" = Some image
           /\ process_frame
                (mkVision unit unit (fun _ => Returned (Some sample_frame))
                          (fun _ => tt) (fun _ => []) (fun _ => tt))
                failing_models image (after_reset init_state)
              = (Returned PyNone, after_reset init_state))
  \/ (200 = 200
      /\ exists image result,
           Some "frame" = Some image
           /\ ResultBody (Reply (mkResponse "blank" (temporal_confidence 1) ""
                                            "blank" ""))
              = ResultBody result
           /\ result <> PyNone
           /\ process_frame
                (mkVision unit unit (fun _ => Returned (Some sample_frame))
                          (fun _ => tt) (fun _ => []) (fun _ => tt))
                failing_models image (after_reset init_state)
              = (Returned result, mkSystem "" "blank" (Some 1) false)).
Proof.
  refine (proj1 (route_statuses unit unit _ failing_models
                   (after_reset init_state)) (Some "frame") _ 200 _ _).
  reflexivity.
Defined.

(** ** Arg-max *)

Lemma argmax_from_first row : forall pre best besti,
  nth_error pre besti = Some best ->
  Forall (fun v => (v <= best)%Q) pre ->
  (forall j u, (j < besti)%nat -> nth_error pre j = Some u -> (u < best)%Q) ->
  exists m,
    nth_error (pre ++ row)
              (argmax_from best besti (List.length pre) row) = Some m
    /\ Forall (fun v => (v <= m)%Q) (pre ++ row)
    /\ forall j u,
         (j < argmax_from best besti (List.length pre) row)%nat ->
         nth_error (pre ++ row) j = Some u -> (u < m)%Q.
Proof.
  induction row as [|v row IH]; intros pre best besti Hb Hpre Hfirst.
  - cbn. rewrite app_nil_r. exists best. repeat split; assumption.
  - cbn [argmax_from].
    replace (pre ++ v :: row)%list with ((pre ++ [v]) ++ row)%list
      by (rewrite <- app_assoc; reflexivity).
    replace (S (List.length pre)) with (List.length (pre ++ [v])%list)
      by (rewrite length_app; cbn; lia).
    assert (Hlen : (besti < List.length pre)%nat)
      by (apply nth_error_Some; congruence).
    destruct (Qltb best v) eqn:E.
    + apply Qltb_lt in E. apply IH.
      * rewrite nth_error_app2 by lia. rewrite Nat.sub_diag. reflexivity.
      * apply Forall_app. split.
        -- eapply Forall_impl; [|exact Hpre]. cbn. intros a Ha.
           eapply Qle_trans; [exact Ha | apply Qlt_le_weak, E].
        -- constructor; [apply Qle_refl | constructor].
      * intros j u Hj Hu. rewrite nth_error_app1 in Hu by exact Hj.
        rewrite Forall_forall in Hpre.
        eapply Qle_lt_trans; [apply Hpre; eapply nth_error_In, Hu | exact E].
    + apply Qltb_ge in E. apply IH.
      * rewrite nth_error_app1 by exact Hlen. exact Hb.
      * apply Forall_app. split; [exact Hpre|].
        constructor; [exact E | constructor].
      * intros j u Hj Hu. rewrite nth_error_app1 in Hu by lia.
        eapply Hfirst; eassumption.
Qed.

(** [np.argmax] as the cascade uses it: on a non-empty row it returns
    an index inside the row whose score no score exceeds, and every
    score before it is strictly smaller, so that among equal maxima the
    first wins. *)
Lemma argmax_first_greatest (row : list Q) :
  row <> [] ->
  exists k m,
    argmax row = Returned k
    /\ nth_error row k = Some m
    /\ (forall u, In u row -> (u <= m)%Q)
    /\ (forall j u,
          (j < k)%nat -> nth_error row j = Some u -> (u < m)%Q).
Proof.
  destruct row as [|v row]; intros Hne; [contradiction|].
  destruct (argmax_from_first row [v] v 0%nat) as (m & Hm & Hall & Hfirst).
  - reflexivity.
  - constructor; [apply Qle_refl | constructor].
  - intros j u Hj. lia.
  - exists (argmax_from v 0%nat 1%nat row), m. cbn [argmax].
    split; [reflexivity|]. split; [exact Hm|].
    split; [apply Forall_forall; exact Hall | exact Hfirst].
Qed.

(** ** The top symbol *)

Lemma nth_error_skipn_cons {A} (l : list A) : forall i,
  (i < List.length l)%nat ->
  exists v, nth_error l i = Some v /\ skipn i l = v :: skipn (S i) l.
Proof.
  induction l as [|a l IH]; intros i Hi; [cbn in Hi; lia|].
  destruct i as [|i]; [exists a; split; reflexivity|].
  cbn in Hi. destruct (IH i) as (v & Hv & Hs); [lia|].
  exists v. split; [exact Hv | exact Hs].
Qed.

Lemma letter_items_enough row chars : forall i,
  (i + 1 + List.length chars <= List.length row)%nat ->
  letter_items row i chars = Returned (combine chars (skipn (i + 1) row)).
Proof.
  induction chars as [|ch chars IH]; intros i Hlen; [reflexivity|].
  cbn [letter_items List.length] in *. unfold getitem.
  destruct (nth_error_skipn_cons row (i + 1)) as (v & Hv & Hs); [lia|].
  rewrite Hv, Hs, (IH (S i)) by lia.
  replace (S i + 1)%nat with (S (i + 1)) by lia. reflexivity.
Qed.

Lemma letter_items_short row chars : forall i,
  (i < List.length row)%nat ->
  (List.length row < i + 1 + List.length chars)%nat ->
  letter_items row i chars = Raised IndexError.
Proof.
  induction chars as [|ch chars IH]; intros i Hi Hlen; [cbn in Hlen; lia|].
  cbn [letter_items List.length] in *. unfold getitem.
  destruct (nth_error row (i + 1)) as [v|] eqn:E; [|reflexivity].
  assert (i + 1 < List.length row)%nat by (apply nth_error_Some; congruence).
  rewrite (IH (S i)) by lia. reflexivity.
Qed.

Lemma prediction_map_enough row :
  (27 <= List.length row)%nat ->
  prediction_map row = Returned (combine ("blank" :: ascii_uppercase) row).
Proof.
  intros Hlen. unfold prediction_map, getitem.
  destruct row as [|v0 row]; [cbn in Hlen; lia|]. cbn [nth_error].
  rewrite letter_items_enough by (cbn in *; lia). reflexivity.
Qed.

Lemma prediction_map_short row :
  (List.length row < 27)%nat -> prediction_map row = Raised IndexError.
Proof.
  intros Hlen. unfold prediction_map, getitem.
  destruct row as [|v0 row]; [reflexivity|]. cbn [nth_error].
  rewrite letter_items_short by (cbn in *; lia). reflexivity.
Qed.

Lemma insert_desc_length y l :
  List.length (insert_desc y l) = S (List.length l).
Proof.
  induction l as [|z l IH]; [reflexivity|]. cbn.
  destruct (Qltb (snd y) (snd z)); cbn; [rewrite IH|]; reflexivity.
Qed.

Lemma sorted_desc_length items :
  List.length (sorted_desc items) = List.length items.
Proof.
  induction items as [|y items IH]; [reflexivity|].
  cbn [sorted_desc fold_right List.length]. fold (sorted_desc items).
  rewrite insert_desc_length, IH. reflexivity.
Qed.

(** The head of the sorted items is the first item of greatest score. *)
Lemma sorted_desc_head items : forall label v rest,
  sorted_desc items = (label, v) :: rest ->
  exists pre post,
    items = (pre ++ (label, v) :: post)%list
    /\ Forall (fun it => (snd it < v)%Q) pre
    /\ Forall (fun it => (snd it <= v)%Q) post.
Proof.
  induction items as [|y items IH]; intros label v rest; [discriminate|].
  cbn [sorted_desc fold_right].
  fold (sorted_desc items).
  destruct (sorted_desc items) as [|[l0 v0] r0] eqn:S.
  - assert (items = []) as ->.
    { apply length_zero_iff_nil. rewrite <- sorted_desc_length, S.
      reflexivity. }
    cbn. intros [= ->]. exists [], []. repeat split; constructor.
  - destruct (IH l0 v0 r0 eq_refl) as (pre & post & -> & Hpre & Hpost).
    destruct y as [ly vy].
    cbn [insert_desc snd]. destruct (Qltb vy v0) eqn:E.
    + apply Qltb_lt in E. intros [= <- <- <-].
      exists ((ly, vy) :: pre), post. repeat split; [|exact Hpost].
      constructor; assumption.
    + apply Qltb_ge in E. intros [= <- <- <-].
      exists [], (pre ++ (l0, v0) :: post)%list.
      repeat split; [constructor|].
      apply Forall_app. split.
      * eapply Forall_impl; [|exact Hpre]. cbn. intros a Ha.
        eapply Qle_trans; [apply Qlt_le_weak, Ha | exact E].
      * constructor; [exact E|].
        eapply Forall_impl; [|exact Hpost]. cbn. intros a Ha.
        eapply Qle_trans; eassumption.
Qed.

Lemma nth_error_combine {A B} (l1 : list A) : forall (l2 : list B) i a b,
  nth_error (combine l1 l2) i = Some (a, b)
  <-> nth_error l1 i = Some a /\ nth_error l2 i = Some b.
Proof.
  induction l1 as [|x l1 IH]; intros l2 i a b.
  - cbn. destruct i; cbn; split; [discriminate| intros [H _]; discriminate
                                 | discriminate | intros [H _]; discriminate].
  - destruct l2 as [|y l2].
    + cbn. destruct i; cbn; split; try discriminate;
        intros [_ H]; discriminate.
    + destruct i as [|i]; cbn.
      * split; [intros [= -> ->]; auto | intros [[= ->] [= ->]]; reflexivity].
      * apply IH.
Qed.

(** X11: the main model's top symbol.  A row of fewer than 27 scores
    raises [IndexError]; on a row of at least 27 only the first 27 count
    (entry 0 for ['blank'], entry [i] for the i-th letter), and the top
    symbol is the label of a greatest of them, the earliest such label
    when scores tie. *)
Theorem top_symbol_is_first_greatest :
  forall row : list Q,
    ((List.length row < 27)%nat -> top_symbol row = Raised IndexError)
    /\ ((27 <= List.length row)%nat ->
        exists i y v,
          top_symbol row = Returned y
          /\ nth_error ("blank" :: ascii_uppercase) i = Some y
          /\ nth_error row i = Some v
          /\ (forall j u, (j < 27)%nat -> nth_error row j = Some u ->
                          (u <= v)%Q)
          /\ (forall j u, (j < i)%nat -> nth_error row j = Some u ->
                          (u < v)%Q)).
Proof.
  intros row. split.
  - intros H. unfold top_symbol. rewrite prediction_map_short by exact H.
    reflexivity.
  - intros H. unfold top_symbol. rewrite prediction_map_enough by exact H.
    set (items := combine ("blank" :: ascii_uppercase) row).
    assert (Hitems : List.length items = 27%nat).
    { unfold items. rewrite length_combine. cbn [List.length ascii_uppercase].
      lia. }
    destruct (sorted_desc items) as [|[y v] rest] eqn:S.
    { apply (f_equal (@List.length _)) in S.
      rewrite sorted_desc_length, Hitems in S. discriminate. }
    destruct (sorted_desc_head items y v rest S)
      as (pre & post & E & Hpre & Hpost).
    assert (Hi : nth_error items (List.length pre) = Some (y, v)).
    { rewrite E, nth_error_app2, Nat.sub_diag by lia. reflexivity. }
    pose proof Hi as Hi'. unfold items in Hi'.
    apply nth_error_combine in Hi'. destruct Hi' as [Hy Hv].
    assert (Hlabel : forall j u, (j < 27)%nat -> nth_error row j = Some u ->
                       exists l, nth_error items j = Some (l, u)).
    { intros j u Hj Hu.
      destruct (nth_error ("blank" :: ascii_uppercase) j) as [l|] eqn:El.
      - exists l. unfold items. apply nth_error_combine. split; assumption.
      - apply nth_error_None in El. cbn in El. lia. }
    exists (List.length pre), y, v. repeat split; try assumption.
    + intros j u Hj Hu. destruct (Hlabel j u Hj Hu) as (l & Hl).
      rewrite E in Hl. apply nth_error_In in Hl.
      apply in_app_or in Hl. rewrite Forall_forall in Hpre, Hpost.
      destruct Hl as [Hl|[Hl|Hl]].
      * apply Qlt_le_weak. apply (Hpre _ Hl).
      * injection Hl as _ ->. apply Qle_refl.
      * apply (Hpost _ Hl).
    + intros j u Hj Hu.
      assert (Hj27 : (j < 27)%nat).
      { assert (List.length pre < List.length items)%nat
          by (apply nth_error_Some; congruence). lia. }
      destruct (Hlabel j u Hj27 Hu) as (l & Hl).
      rewrite E, nth_error_app1 in Hl by exact Hj.
      rewrite Forall_forall in Hpre.
      apply (Hpre _ (nth_error_In _ _ Hl)).
Qed.

Lemma top_symbol_is_first_greatest_witness :
  top_symbol (map inject_Z [3; 1; 3]) = Raised IndexError
  /\ exists i y v,
       top_symbol (map inject_Z (repeat 5 27)) = Returned y
       /\ nth_error ("blank" :: ascii_uppercase) i = Some y
       /\ nth_error (map inject_Z (repeat 5 27)) i = Some v
       /\ (forall j u, (j < 27)%nat ->
                       nth_error (map inject_Z (repeat 5 27)) j = Some u ->
                       (u <= v)%Q)
       /\ (forall j u, (j < i)%nat ->
                       nth_error (map inject_Z (repeat 5 27)) j = Some u ->
                       (u < v)%Q).
Proof.
  split.
  - refine (proj1 (top_symbol_is_first_greatest (map inject_Z [3; 1; 3])) _).
    cbn. lia.
  - refine (proj2 (top_symbol_is_first_greatest
                     (map inject_Z (repeat 5 27))) _).
    cbn. lia.
Defined.

(** ** Routing in the cascade *)

Lemma member_in x labels : member x labels = true <-> In x labels.
Proof.
  unfold member. rewrite existsb_exists. split.
  - intros (y & Hy & E). apply String.eqb_eq in E. subst y. exact Hy.
  - intros H. exists x. split; [exact H | apply String.eqb_refl].
Qed.

(** X12: how the cascade routes the main model's top symbol: D, R and U
    are settled by the DRU model, I, K and T by the TKDI model, M, N and
    S by the SMN model, each answering with a label of its own group;
    any other top symbol, ['blank'] included, is the answer as it is,
    and then none of the three disambiguators has a part in it. *)
Theorem cascade_routes_by_group :
  forall (Tensor : Type) (models : Models Tensor) (input : Tensor)
         (result : list Q) (top : string),
    loaded_model models input = Returned result ->
    top_symbol result = Returned top ->
    (In top ["D"; "R"; "U"] ->
     classify models input = refine (loaded_model_dru models) group_dru input
     /\ forall y, classify models input = Returned y -> In y ["D"; "R"; "U"])
    /\ (In top ["I"; "K"; "T"] ->
        classify models input
        = refine (loaded_model_tkdi models) group_tkdi input
        /\ forall y, classify models input = Returned y ->
                     In y ["D"; "I"; "K"; "T"])
    /\ (In top ["M"; "N"; "S"] ->
        classify models input
        = refine (loaded_model_smn models) group_smn input
        /\ forall y, classify models input = Returned y ->
                     In y ["M"; "N"; "S"])
    /\ (~ In top ["D"; "R"; "U"; "I"; "K"; "T"; "M"; "N"; "S"] ->
        forall dru tkdi smn,
          classify (mkModels Tensor (loaded_model models) dru tkdi smn) input
          = Returned top).
Proof.
  intros Tensor models input result top Hm Htop.
  assert (Hgroup : forall (model : Tensor -> outcome (list Q)) labels,
             classify models input = refine model labels input ->
             forall y, classify models input = Returned y -> In y labels).
  { intros model labels E y Hy. rewrite E in Hy.
    eapply refine_label, Hy. }
  split; [|split; [|split]].
  - intros Hin.
    assert (E : classify models input
                = refine (loaded_model_dru models) group_dru input).
    { unfold classify. rewrite Hm, Htop.
      replace (member top group_dru) with true; [reflexivity|].
      symmetry. apply member_in. exact Hin. }
    split; [exact E | exact (Hgroup _ _ E)].
  - intros Hin.
    assert (E : classify models input
                = refine (loaded_model_tkdi models) group_tkdi input).
    { unfold classify. rewrite Hm, Htop.
      destruct Hin as [<-|[<-|[<-|[]]]]; reflexivity. }
    split; [exact E | exact (Hgroup _ _ E)].
  - intros Hin.
    assert (E : classify models input
                = refine (loaded_model_smn models) group_smn input).
    { unfold classify. rewrite Hm, Htop.
      destruct Hin as [<-|[<-|[<-|[]]]]; reflexivity. }
    split; [exact E | exact (Hgroup _ _ E)].
  - intros Hout dru tkdi smn. unfold classify.
    cbn [loaded_model loaded_model_dru loaded_model_tkdi loaded_model_smn].
    rewrite Hm, Htop.
    destruct (member top group_dru) eqn:E1.
    { apply member_in in E1. exfalso. apply Hout. cbn in *. tauto. }
    destruct (member top group_tkdi) eqn:E2.
    { apply member_in in E2. exfalso. apply Hout. cbn in *. tauto. }
    destruct (member top group_smn) eqn:E3.
    { apply member_in in E3. exfalso. apply Hout. cbn in *. tauto. }
    reflexivity.
Qed.

Lemma cascade_routes_by_group_witness :
  classify
    (mkModels unit
       (fun _ => Returned (map inject_Z
                   [0; 0; 0; 0; 0; 0; 0; 0; 0; 8; 0; 0; 0; 0;
                    0; 0; 0; 0; 0; 0; 0; 0; 0; 0; 0; 0; 0]))
       (fun _ => Raised (LibraryError "unused"))
       (fun _ => Returned (map inject_Z [6; 2; 1; 3]))
       (fun _ => Raised (LibraryError "unused"))) tt
  = Returned "D".
Proof.
  refine (eq_trans
            (proj1 (proj1 (proj2 (cascade_routes_by_group unit _ tt _ "I" _ _))
                          _)) _).
  - reflexivity.
  - reflexivity.
  - cbn. auto.
  - reflexivity.
Defined.

(** X13: a disambiguation step on its own: the model's exception is the
    step's exception; an empty score row raises [ValueError]; a row with
    no more scores than the group has labels always yields a label of
    the group; and a longer row whose first greatest score lies beyond
    the labels raises [IndexError]. *)
Theorem refine_outcomes :
  forall (Tensor : Type) (model : Tensor -> outcome (list Q))
         (labels : list string) (input : Tensor),
    (forall e, model input = Raised e ->
               refine model labels input = Raised e)
    /\ (model input = Returned [] ->
        refine model labels input = Raised ValueError)
    /\ (forall res,
           model input = Returned res -> res <> [] ->
           (List.length res <= List.length labels)%nat ->
           exists y, refine model labels input = Returned y /\ In y labels)
    /\ (forall res k,
           model input = Returned res -> argmax res = Returned k ->
           (List.length labels <= k)%nat ->
           refine model labels input = Raised IndexError).
Proof.
  intros Tensor model labels input. unfold refine.
  split; [|split; [|split]].
  - intros e ->. reflexivity.
  - intros ->. reflexivity.
  - intros res -> Hne Hlen.
    destruct (argmax_first_greatest res Hne) as (k & m & Hk & Hm & _).
    rewrite Hk. unfold getitem.
    assert (k < List.length res)%nat by (apply nth_error_Some; congruence).
    destruct (nth_error labels k) as [y|] eqn:E.
    + exists y. split; [reflexivity | eapply nth_error_In, E].
    + apply nth_error_None in E. lia.
  - intros res k -> -> Hk. unfold getitem.
    replace (nth_error labels k) with (@None string); [reflexivity|].
    symmetry. apply nth_error_None. exact Hk.
Qed.

Lemma refine_outcomes_witness :
  refine (fun _ : unit => Returned (map inject_Z [1; 2; 3; 9]))
         group_dru tt
  = Raised IndexError.
Proof.
  refine (proj2 (proj2 (proj2 (refine_outcomes unit _ group_dru tt)))
                (map inject_Z [1; 2; 3; 9]) 3%nat _ _ _).
  - reflexivity.
  - reflexivity.
  - cbn. lia.
Defined.

(** ** The region of interest *)

Lemma slice_in {A} (l : list A) a b x : In x (slice l a b) -> In x l.
Proof.
  unfold slice. intros H.
  rewrite <- (firstn_skipn (Z.to_nat a) l). apply in_or_app. right.
  rewrite <- (firstn_skipn (Z.to_nat (b - a)) (skipn (Z.to_nat a) l)).
  apply in_or_app. left. exact H.
Qed.

(** A window of [n] entries centred in a list, as [process_frame] cuts
    it, keeps [n] entries of a list that has them and the whole of a
    shorter list. *)
Lemma centred_slice_length {A} (l : list A) (n : Z) :
  0 < n ->
  let a := Z.max 0 ((Z.of_nat (List.length l) - n) / 2) in
  List.length (slice l a (a + n)) = Nat.min (List.length l) (Z.to_nat n).
Proof.
  intros Hn a. unfold slice. rewrite length_firstn, length_skipn.
  replace (a + n - a) with n by lia.
  assert (Ha : 0 <= a
               /\ (Z.of_nat (List.length l) <= n -> a = 0)
               /\ (n <= Z.of_nat (List.length l) ->
                   a <= Z.of_nat (List.length l) - n)).
  { subst a. split; [lia|]. split; intros H.
    - apply Z.max_l. apply Z.div_le_upper_bound; lia.
    - apply Z.max_lub; [lia|]. apply Z.div_le_upper_bound; lia. }
  destruct Ha as (H0 & Hsmall & Hlarge).
  destruct (Z.le_ge_cases (Z.of_nat (List.length l)) n) as [H|H].
  - rewrite (Hsmall H). cbn. lia.
  - specialize (Hlarge H). lia.
Qed.

Lemma flip_rectangular w frame :
  rectangular w frame -> rectangular w (flip frame).
Proof.
  unfold rectangular, flip. intros H. apply Forall_map.
  eapply Forall_impl; [|exact H]. cbn. intros row Hrow.
  rewrite length_rev. exact Hrow.
Qed.

(** X14: the region of interest that [process_frame] cuts from a decoded
    frame of [h] rows and [w] columns (mirrored first) has
    [min h 289] rows and [min w 515] columns: the full 289 x 515 window
    when the frame is at least that large, the whole frame when it is
    smaller.  A frame with at least one pixel therefore never has an
    empty region, and the empty-region branch is not taken for it. *)
Theorem region_of_interest_shape :
  forall (frame : Frame) (w : nat),
    frame <> [] -> rectangular w frame ->
    shape (region_of_interest (flip frame))
    = (Z.of_nat (Nat.min (List.length frame) 289),
       Z.of_nat (Nat.min w 515))
    /\ rectangular (Nat.min w 515) (region_of_interest (flip frame))
    /\ ((0 < w)%nat -> size (region_of_interest (flip frame)) <> 0).
Proof.
  intros frame w Hne Hrect.
  assert (Hf : rectangular w (flip frame)) by (apply flip_rectangular, Hrect).
  assert (Hlen : List.length (flip frame) = List.length frame)
    by apply length_map.
  revert Hf Hlen. generalize (flip frame). intros f Hf Hlen.
  assert (Hhd : List.length (hd [] f) = w).
  { destruct f as [|row f]; [destruct frame; [contradiction|discriminate]|].
    inversion Hf. assumption. }
  unfold region_of_interest, shape. rewrite Hhd.
  set (y1 := Z.max 0 ((Z.of_nat (List.length f) - 289) / 2)).
  set (x1 := Z.max 0 ((Z.of_nat w - 515) / 2)).
  assert (Hrows : List.length (slice f y1 (y1 + 289))
                  = Nat.min (List.length f) 289).
  { apply (centred_slice_length f 289). lia. }
  assert (Hcols : forall row, In row f ->
                    List.length (slice row x1 (x1 + 515)) = Nat.min w 515).
  { intros row Hin. unfold rectangular in Hf. rewrite Forall_forall in Hf.
    subst x1. rewrite <- (Hf row Hin).
    apply (centred_slice_length row 515). lia. }
  assert (Hrect' : rectangular (Nat.min w 515)
                               (crop f y1 (y1 + 289) x1 (x1 + 515))).
  { unfold rectangular, crop. apply Forall_map, Forall_forall.
    intros row Hin. apply Hcols. eapply slice_in, Hin. }
  assert (Hshape : shape (crop f y1 (y1 + 289) x1 (x1 + 515))
                   = (Z.of_nat (Nat.min (List.length frame) 289),
                      Z.of_nat (Nat.min w 515))).
  { unfold shape. f_equal.
    - unfold crop. rewrite length_map, Hrows, Hlen. reflexivity.
    - f_equal. destruct (crop f y1 (y1 + 289) x1 (x1 + 515)) as [|r rs] eqn:E.
      + apply (f_equal (@List.length _)) in E. unfold crop in E.
        rewrite length_map, Hrows, Hlen in E.
        destruct frame; [contradiction | discriminate].
      + inversion Hrect'. assumption. }
  split; [exact Hshape|]. split; [exact Hrect'|].
  intros Hw. unfold size. rewrite Hshape.
  assert (0 < List.length frame)%nat
    by (destruct frame; [contradiction | cbn; lia]).
  lia.
Qed.

Lemma region_of_interest_shape_witness :
  shape (region_of_interest (flip sample_frame)) = (2, 2)
  /\ size (region_of_interest (flip sample_frame)) <> 0.
Proof.
  destruct (region_of_interest_shape sample_frame 2) as (Hs & _ & Hz).
  - discriminate.
  - repeat constructor.
  - split; [exact Hs | apply Hz; repeat constructor].
Defined.

(** ** The payload prefix *)





(** ** Locked sessions and typed words *)

Lemma endswith_refl x : endswith x x = true.
Proof. destruct x; cbn [endswith]; rewrite String.eqb_refl; reflexivity. Qed.

Lemma endswith_append w x : endswith (w ++ x) x = true.
Proof.
  induction w as [|a w IH]; [apply endswith_refl|].
  change (String a w ++ x) with (String a (w ++ x)). cbn [endswith].
  rewrite IH. destruct (String a (w ++ x) =? x); reflexivity.
Qed.

Lemma lock_matches_word_frame x s :
  lock_matches_word s -> lock_matches_word (after_frame x s).
Proof.
  destruct s as [w l c k]. unfold lock_matches_word, after_frame.
  cbn [already_locked last_prediction current_word]. intros H.
  destruct (String.eqb_spec x l) as [->|Hne].
  - destruct c as [c|]; [|destruct k].
    + destruct k.
      * rewrite handle_locked. exact H.
      * destruct (Z.lt_ge_cases (c + 1) LOCK_THRESHOLD) as [Hlt|Hge].
        -- rewrite handle_counting by exact Hlt. discriminate.
        -- rewrite handle_commit by exact Hge.
           cbn [snd already_locked last_prediction current_word].
           intros _. unfold commit.
           destruct (l =? "blank").
           ++ destruct w as [|a w]; [left; reflexivity|].
              cbn [truthy andb].
              destruct (endswith (String a w) " ") eqn:E; cbn [negb].
              ** right. exact E.
              ** right. apply endswith_append.
           ++ apply endswith_append.
    + unfold _handle_prediction, bind, get, get_stable_frame_count, when.
      cbn. rewrite String.eqb_refl. cbn. exact H.
    + rewrite handle_absent. discriminate.
  - rewrite handle_changed by (apply String.eqb_neq; exact Hne).
    discriminate.
Qed.

(** X16: in every reachable session that is locked, the word ends with
    what the lock committed: with the locked letter, or, when the lock
    is on ['blank'], with a space unless the word is still empty. *)
Theorem locked_word_ends_with_commit :
  forall s : SignLanguageSystem,
    reachable s -> already_locked s = true ->
    (last_prediction s <> "blank" ->
     endswith (current_word s) (last_prediction s) = true)
    /\ (last_prediction s = "blank" ->
        current_word s = "" \/ endswith (current_word s) " " = true).
Proof.
  intros s Hs Hk.
  assert (H : lock_matches_word s).
  { clear Hk. induction Hs as [|s _ _|s x _ IH _].
    - discriminate.
    - discriminate.
    - apply lock_matches_word_frame, IH. }
  specialize (H Hk). split.
  - intros Hne. apply String.eqb_neq in Hne. rewrite Hne in H. exact H.
  - intros E. rewrite E in H. exact H.
Qed.

Lemma locked_word_ends_with_commit_witness :
  endswith (current_word (feed (repeat "H" 50 ++ repeat "I" 60)
                               (after_reset init_state))) "I" = true.
Proof.
  refine (proj1 (locked_word_ends_with_commit
                   (feed (repeat "H" 50 ++ repeat "I" 60)
                         (after_reset init_state)) _ _) _).
  - apply feed_reachable; [apply reach_reset, reach_init|].
    vm_compute. reflexivity.
  - vm_compute. reflexivity.
  - vm_compute. discriminate.
Defined.

Lemma feed_typed ls k : forall s,
  (50 <= k)%nat ->
  distinct_adjacent (last_prediction s) ls = true ->
  feed (flat_map (fun x => repeat x k) ls) s
  = match ls with
    | [] => s
    | _ :: _ =>
        mkSystem (fold_left (fun w x => commit x w) ls (current_word s))
                 (last ls "") (Some 50) true
    end.
Proof.
  induction ls as [|x ls IH]; intros s Hk Hd; [reflexivity|].
  cbn [distinct_adjacent] in Hd. apply andb_true_iff in Hd.
  destruct Hd as [Hx Hd]. apply negb_true_iff, String.eqb_neq in Hx.
  cbn [flat_map]. rewrite feed_app.
  rewrite (feed_change_lock s x k Hx Hk).
  rewrite IH by assumption.
  destruct ls as [|y ls]; reflexivity.
Qed.

(** X17: typing.  From any session, holding one symbol after the other
    for at least 50 frames each, no symbol following itself, commits
    them in order: the word ends up as the successive commits of the
    symbols on the word the session had (each letter appended, each
    ['blank'] a space under the space rule), and a non-empty sequence
    leaves the session locked on its last symbol. *)
Theorem typed_symbols_commit_in_order :
  forall (s : SignLanguageSystem) (ls : list string) (k : nat),
    (50 <= k)%nat ->
    distinct_adjacent (last_prediction s) ls = true ->
    current_word (feed (flat_map (fun x => repeat x k) ls) s)
    = fold_left (fun w x => commit x w) ls (current_word s)
    /\ (ls <> [] ->
        already_locked (feed (flat_map (fun x => repeat x k) ls) s) = true
        /\ last_prediction (feed (flat_map (fun x => repeat x k) ls) s)
           = last ls "").
Proof.
  intros s ls k Hk Hd. rewrite feed_typed by assumption.
  destruct ls as [|x ls].
  - split; [reflexivity | intros H; contradiction].
  - split; [reflexivity | intros _; split; reflexivity].
Qed.

Lemma typed_symbols_commit_in_order_witness :
  current_word
    (feed (flat_map (fun x => repeat x 55)
                    ["H"; "I"; "blank"; "Y"; "O"; "blank"; "U"; "blank"])
          (after_reset init_state))
  = "HI YO U ".
Proof.
  refine (eq_trans
            (proj1 (typed_symbols_commit_in_order
                      (after_reset init_state)
                      ["H"; "I"; "blank"; "Y"; "O"; "blank"; "U"; "blank"]
                      55 _ _)) _).
  - apply Nat.leb_le. reflexivity.
  - reflexivity.
  - reflexivity.
Defined.

(** ** The confidence shown *)

Lemma confidence_exact (n : nat) :
  (n <= 50)%nat -> n <> 7%nat -> n <> 14%nat -> n <> 28%nat -> n <> 29%nat ->
  temporal_confidence (Z.of_nat n) = PyFloat.of_int (2 * Z.of_nat n).
Proof.
  intros Hn H7 H14 H28 H29.
  do 51 (destruct n as [|n];
         [try (vm_compute; reflexivity); exfalso; lia|]).
  lia.
Qed.

Lemma confidence_inexact (c : Z) :
  c = 7 \/ c = 14 \/ c = 28 \/ c = 29 ->
  temporal_confidence c
  = SFsucc PyFloat.prec PyFloat.emax (PyFloat.of_int (2 * c))
  \/ temporal_confidence c
     = SFpred PyFloat.prec PyFloat.emax (PyFloat.of_int (2 * c)).
Proof.
  intros [H|[H|[H|H]]]; subst c;
    first [left; vm_compute; reflexivity | right; vm_compute; reflexivity].
Qed.

(** X18: the confidence a reachable session shows is exactly twice the
    counter, as a float, for every counter but 7, 14, 28 and 29; at
    those four the binary64 division and multiplication round off, and
    the confidence is the float next to twice the counter, one unit in
    the last place above or below it. *)
Theorem confidence_is_twice_the_counter :
  forall (s : SignLanguageSystem) (x : string) (r : Response)
         (s' : SignLanguageSystem) (c : Z),
    reachable s ->
    _handle_prediction x s = (Returned r, s') ->
    stable_frame_count s' = Some c ->
    (c <> 7 -> c <> 14 -> c <> 28 -> c <> 29 ->
     confidence r = PyFloat.of_int (2 * c))
    /\ (c = 7 \/ c = 14 \/ c = 28 \/ c = 29 ->
        confidence r <> PyFloat.of_int (2 * c)
        /\ (confidence r
            = SFsucc PyFloat.prec PyFloat.emax (PyFloat.of_int (2 * c))
            \/ confidence r
               = SFpred PyFloat.prec PyFloat.emax (PyFloat.of_int (2 * c)))).
Proof.
  intros s x r s' c Hs H Hc.
  assert (Hok : counter_ok s').
  { replace s' with (after_frame x s)
      by (unfold after_frame; rewrite H; reflexivity).
    apply counter_ok_frame, reachable_counter_ok, Hs. }
  apply handle_returned in H. destruct H as (_ & c' & Hc' & Hr).
  rewrite Hc in Hc'. injection Hc' as <-. rewrite Hr.
  unfold counter_ok in Hok. rewrite Hc in Hok.
  assert (Hrange : 0 <= c <= 50)
    by (destruct Hok as [[-> _]|[[? _]|[-> _]]]; lia).
  split.
  - intros H7 H14 H28 H29.
    rewrite <- (Z2Nat.id c) by lia. apply confidence_exact; lia.
  - intros Hq. split; [|apply confidence_inexact, Hq].
    destruct Hq as [E|[E|[E|E]]]; subst c; vm_compute; discriminate.
Qed.

Lemma confidence_is_twice_the_counter_witness :
  temporal_confidence 30 = PyFloat.of_int 60.
Proof.
  refine (proj1 (confidence_is_twice_the_counter
                   (feed (repeat "A" 29) (after_reset init_state)) "A"
                   (mkResponse "A" (temporal_confidence 30) "" "A" "")
                   (mkSystem "" "A" (Some 30) false) 30 _ _ _) _ _ _ _).
  - apply feed_reachable; [apply reach_reset, reach_init|].
    vm_compute. reflexivity.
  - vm_compute. reflexivity.
  - reflexivity.
  - discriminate.
  - discriminate.
  - discriminate.
  - discriminate.
Defined.
